(** * voxel-cone-tracing: the material/uniform binder and the compute-shader
      resource

    A shallow embedding of [Source/Graphic/Material/Material.cpp] and of the
    declarations of [Source/Graphic/Material/ComputeShader.h], with the
    properties the specification states about them.

    OpenGL is an external collaborator: every call the code issues is recorded
    as an [event], in program order, and the answers of the driver
    (uniform locations, the new program name, the link status) are read from a
    [GLdriver] record.  [assert] is modelled as in a build without [NDEBUG]:
    a false condition terminates the process at that assertion. *)

From Stdlib Require Import ZArith String Ascii List Lia Bool.
From Stdlib Require Import Floats.SpecFloat Numbers.DecimalString.
From Stdlib Require Import Numbers.DecimalPos Numbers.DecimalZ.
From stdpp Require Import base option list gmap strings.

Local Open Scope string_scope.
Local Open Scope list_scope.
Local Open Scope Z_scope.

(** ** Fixed-width integers and OpenGL constants *)

Module GL.

(** [GLint] is a 32-bit two's complement integer, [GLuint] and [GLenum]
    are 32-bit unsigned. Conversions between them keep the bit pattern. *)
Definition to_GLuint (z : Z) : Z := z mod 2 ^ 32.
Definition to_GLint (z : Z) : Z := (z + 2 ^ 31) mod 2 ^ 32 - 2 ^ 31.
Definition to_GLenum (z : Z) : Z := to_GLuint z.

Definition in_GLint (z : Z) : Prop := - 2 ^ 31 <= z < 2 ^ 31.
Definition in_GLuint (z : Z) : Prop := 0 <= z < 2 ^ 32.

(** Values of the tokens, from the OpenGL headers. *)
Definition GL_FALSE : Z := 0.
Definition GL_TEXTURE_2D : Z := 0x0DE1.
Definition GL_TEXTURE_3D : Z := 0x806F.
Definition GL_TEXTURE0 : Z := 0x84C0.
Definition GL_LINK_STATUS : Z := 0x8B82.
Definition GL_MAX_COMBINED_TEXTURE_IMAGE_UNITS : Z := 0x8B4D.

(** [GLfloat]: an IEEE-754 binary floating-point datum. Uniform values are
    only moved around by the material code, never computed with. *)
Definition GLfloat : Type := spec_float.

End GL.
Import GL.

(** ** glm vectors and matrices *)

Module glm.
Record vec2 := mk_vec2 { x2 : GLfloat; y2 : GLfloat }.
Record vec3 := mk_vec3 { x : GLfloat; y : GLfloat; z : GLfloat }.
Record vec4 := mk_vec4 { x4 : GLfloat; y4 : GLfloat; z4 : GLfloat; w4 : GLfloat }.
(** Column-major, as [glm::value_ptr] exposes it. *)
Record mat4 := mk_mat4 { col0 : vec4; col1 : vec4; col2 : vec4; col3 : vec4 }.
End glm.

(** [std::to_string] on an integer: decimal digits, a leading minus sign for
    negative values. *)
Definition to_string (n : Z) : string := NilZero.string_of_int (Z.to_int n).

Definition endl : string := String (ascii_of_nat 10) EmptyString.

(** The text a chain of [<<] insertions (or a [printf] format) produces. *)
Definition stream (parts : list string) : string := String.concat "" parts.

(** ** Events and the execution monad *)

(** The places where the code asserts. *)
Inductive assertion :=
| assert_vertexShader_not_null
| assert_fragmentShader_not_null
| assert_vertexShader_type
| assert_fragmentShader_type
| assert_geometryShader_type
| assert_tessEvaluationShader_type
| assert_tessControlShader_type
| assert_setting_not_NONE
| assert_unrecognized_setting
| assert_texture_unit_2D
| assert_texture_unit_3D.

(** Calls into OpenGL and writes to the standard streams. *)
Inductive event :=
| glError
| glCreateProgram
| glAttachShader (program shader : Z)
| glLinkProgram (program : Z)
| glGetProgramiv (program pname : Z)
| glGetProgramInfoLog (program bufSize : Z)
| glUseProgram (program : Z)
| glDeleteProgram (program : Z)
| glGetUniformLocation (program : Z) (name : string)
| glUniform1i (location v0 : Z)
| glUniform1ui (location v0 : Z)
| glUniform1f (location : Z) (v0 : GLfloat)
| glUniform2fv (location count : Z) (value : glm.vec2)
| glUniform3fv (location count : Z) (value : glm.vec3)
| glUniform4fv (location count : Z) (value : glm.vec4)
| glUniformMatrix4fv (location count transpose : Z) (value : glm.mat4)
| glActiveTexture (texture : Z)
| glBindTexture (target texture : Z)
| cout (text : string)
| cerr (text : string)
| printf (text : string).

(** What the OpenGL implementation answers. *)
Record GLdriver := mk_GLdriver {
  uniformLocation : Z -> string -> Z;   (* program, name: location or -1 *)
  newProgram : Z;                       (* glCreateProgram *)
  linkStatus : Z -> Z;                  (* GL_LINK_STATUS of a program *)
  infoLog : Z -> string                 (* glGetProgramInfoLog *)
}.

(** A run of a member function on an object of type [S]: either it returns a
    value and leaves an updated object, or an assertion stops the process. *)
Inductive Outcome (S A : Type) :=
| Returned (a : A) (s : S)
| Aborted (why : assertion).
Arguments Returned {S A} a s.
Arguments Aborted {S A} why.

Definition M (S A : Type) : Type := S -> list event * Outcome S A.

Definition ret {S A} (a : A) : M S A := fun s => ([], Returned a s).

Definition bind {S A B} (m : M S A) (k : A -> M S B) : M S B :=
  fun s =>
    match m s with
    | (t1, Returned a s1) => let (t2, o) := k a s1 in (t1 ++ t2, o)
    | (t1, Aborted why) => (t1, Aborted why)
    end.

#[global] Instance M_ret {S} : MRet (M S) := fun A => @ret S A.
#[global] Instance M_bind {S} : MBind (M S) := fun A B k m => @bind S A B m k.

Definition call {S} (e : event) : M S unit := fun s => ([e], Returned tt s).
Definition get {S} : M S S := fun s => ([], Returned s s).
Definition put {S} (s : S) : M S unit := fun _ => ([], Returned tt s).
Definition assert {S} (cond : bool) (a : assertion) : M S unit :=
  fun s => if cond then ([], Returned tt s) else ([], Aborted a).

Definition trace {S A} (r : list event * Outcome S A) : list event := fst r.
Definition outcome {S A} (r : list event * Outcome S A) : Outcome S A := snd r.

(** ** Shaders and shader parameters *)

Module Shader.
Inductive ShaderType :=
| VERTEX | FRAGMENT | GEOMETRY | TESSELATION_EVALUATION | TESSELATION_CONTROL.

Definition ShaderType_eqb (a b : ShaderType) : bool :=
  match a, b with
  | VERTEX, VERTEX | FRAGMENT, FRAGMENT | GEOMETRY, GEOMETRY
  | TESSELATION_EVALUATION, TESSELATION_EVALUATION
  | TESSELATION_CONTROL, TESSELATION_CONTROL => true
  | _, _ => false
  end.

Record Shader := mk_Shader { shaderType : ShaderType; ShaderID : Z }.
End Shader.

(** A [ShaderSharedPtr]: [None] is [nullptr]. *)
Definition ShaderSharedPtr : Type := option Shader.Shader.

Record Texture := mk_Texture { GetTextureID : Z }.

Record PointLight := mk_PointLight {
  index : Z;
  position : glm.vec3;
  color : glm.vec3
}.

Module ShaderParameter.
Inductive Type_ :=
| NONE | MAT4 | VEC4 | VEC3 | VEC2 | FLOAT | INT | BOOLEAN | UINT
| SAMPLER_2D | SAMPLER_3D | POINT_LIGHT.

Definition Type_eqb (a b : Type_) : bool :=
  match a, b with
  | NONE, NONE | MAT4, MAT4 | VEC4, VEC4 | VEC3, VEC3 | VEC2, VEC2
  | FLOAT, FLOAT | INT, INT | BOOLEAN, BOOLEAN | UINT, UINT
  | SAMPLER_2D, SAMPLER_2D | SAMPLER_3D, SAMPLER_3D
  | POINT_LIGHT, POINT_LIGHT => true
  | _, _ => false
  end.

#[global] Instance Type_eq_dec : EqDecision Type_.
Proof. solve_decision. Defined.

Record Sampler2D := mk_Sampler2D { texture2D : Texture }.
Record Sampler3D := mk_Sampler3D { texture3D : Texture }.

(** The tagged value: [getType] reads the tag, the typed getters read the
    payload stored with it. *)
Inductive ShaderParameter :=
| none
| mat4Value (v : glm.mat4)
| vec4Value (v : glm.vec4)
| vec3Value (v : glm.vec3)
| vec2Value (v : glm.vec2)
| floatValue (v : GLfloat)
| intValue (v : Z)
| boolValue (v : bool)
| unsignedInt (v : Z)
| sampler2DValue (s : Sampler2D)
| sampler3DValue (s : Sampler3D)
| pointLightValue (l : PointLight).

Definition getType (p : ShaderParameter) : Type_ :=
  match p with
  | none => NONE
  | mat4Value _ => MAT4
  | vec4Value _ => VEC4
  | vec3Value _ => VEC3
  | vec2Value _ => VEC2
  | floatValue _ => FLOAT
  | intValue _ => INT
  | boolValue _ => BOOLEAN
  | unsignedInt _ => UINT
  | sampler2DValue _ => SAMPLER_2D
  | sampler3DValue _ => SAMPLER_3D
  | pointLightValue _ => POINT_LIGHT
  end.

(** A [ShaderParamsGroup], in the order the range-for visits it. *)
Abbreviation ShaderParamsGroup := (list (string * ShaderParameter)).
End ShaderParameter.

(** ** Material.cpp *)

Module Material.
Import ShaderParameter.

Record Material := mk_Material { name : string; program : Z }.

(** *** Material::Material and Material::AssembleProgram

    The object under construction is the state: [AssembleProgram] assigns
    its [program] member. *)

Definition ShaderID_of (sh : Shader.Shader) : Z := to_GLuint (Shader.ShaderID sh).

Definition AssembleProgram (gl : GLdriver)
    (vertexShader fragmentShader geometryShader
     tessEvaluationShader tessControlShader : ShaderSharedPtr) : M Material unit :=
  assert (bool_decide (is_Some vertexShader)) assert_vertexShader_not_null;;
  assert (bool_decide (is_Some fragmentShader)) assert_fragmentShader_not_null;;
  this ← get;
  call glCreateProgram;;
  let program := to_GLuint (newProgram gl) in
  put (mk_Material (name this) program);;
  (* Vertex shader. *)
  match vertexShader with
  | Some sh =>
      assert (Shader.ShaderType_eqb (Shader.shaderType sh) Shader.VERTEX)
             assert_vertexShader_type;;
      call (glAttachShader program (ShaderID_of sh))
  | None => mret tt
  end;;
  (* Fragment shader. *)
  match fragmentShader with
  | Some sh =>
      assert (Shader.ShaderType_eqb (Shader.shaderType sh) Shader.FRAGMENT)
             assert_fragmentShader_type;;
      call (glAttachShader program (ShaderID_of sh))
  | None => mret tt
  end;;
  (* Geometry shader. *)
  match geometryShader with
  | Some sh =>
      assert (Shader.ShaderType_eqb (Shader.shaderType sh) Shader.GEOMETRY)
             assert_geometryShader_type;;
      call (glAttachShader program (ShaderID_of sh))
  | None => mret tt
  end;;
  (* Tesselation evaluation shader. *)
  match tessEvaluationShader with
  | Some sh =>
      assert (Shader.ShaderType_eqb (Shader.shaderType sh)
                Shader.TESSELATION_EVALUATION)
             assert_tessEvaluationShader_type;;
      call (glAttachShader program (ShaderID_of sh))
  | None => mret tt
  end;;
  (* Tesselation control shader. *)
  match tessControlShader with
  | Some sh =>
      assert (Shader.ShaderType_eqb (Shader.shaderType sh)
                Shader.TESSELATION_CONTROL)
             assert_tessControlShader_type;;
      call (glAttachShader program (ShaderID_of sh))
  | None => mret tt
  end;;
  call (glLinkProgram program);;
  (* Check if we succeeded. *)
  call (glGetProgramiv program GL_LINK_STATUS);;
  let success := to_GLint (linkStatus gl program) in
  if success =? 0 then
    call (glGetProgramInfoLog program 1024);;
    call (cerr (stream ["- Failed to link program and material '"; name this;
                        "' ("; to_string program; ")."; endl]));;
    call (cerr (stream ["LOG: "; endl; infoLog gl program; endl]))
  else
    call (cout (stream ["- Material '"; name this; "' (program ";
                        to_string program; ") sucessfully created."; endl])).

(** The constructor: [name(_name)], then the body. The object starts with
    an indeterminate [program]. *)
Definition Material_ctor (gl : GLdriver) (_name : string)
    (vertexShader fragmentShader geometryShader
     tessEvaluationShader tessControlShader : ShaderSharedPtr)
    (indeterminate : Z) : list event * Outcome Material unit :=
  AssembleProgram gl vertexShader fragmentShader geometryShader
    tessControlShader tessControlShader
    (mk_Material _name indeterminate).

Definition Material_dtor (this : Material) : list event :=
  [glDeleteProgram (program this)].

(** *** Material::Commands

    The members are declared in Material.h, which the excerpt does not
    contain. [textureUnits] is passed where the code expects a [GLint] and is
    modelled as one. *)

Record Commands := mk_Commands { material : Material; textureUnits : Z }.

Definition Commands_ctor (_material : Material) : list event * Commands :=
  ([glUseProgram (program _material)], mk_Commands _material 0).

Definition Commands_dtor (this : Commands) : list event := [glUseProgram 0].

Section WithDriver.
Context (gl : GLdriver).

(** [glGetUniformLocation(material->program, name)] and its [GLint]
    result. *)
Definition GetUniformLocation (parameterName : string) : M Commands Z :=
  this ← get;
  call (glGetUniformLocation (program (material this)) parameterName);;
  mret (to_GLint (uniformLocation gl (program (material this)) parameterName)).

Definition SetParameteri (parameterName : string) (value : Z) : M Commands Z :=
  location ← GetUniformLocation parameterName;
  call (glUniform1i location value);;
  mret location.

(** The location is held in a [GLuint] local, passed to [glUniform1ui] as
    [GLint] and returned as [GLint]. *)
Definition SetParameterui (parameterName : string) (value : Z) : M Commands Z :=
  l ← GetUniformLocation parameterName;
  let location := to_GLuint l in
  call (glUniform1ui (to_GLint location) value);;
  mret (to_GLint location).

Definition SetParameterf (parameterName : string) (value : GLfloat) : M Commands Z :=
  location ← GetUniformLocation parameterName;
  call (glUniform1f location value);;
  mret location.

Definition SetParameterv4 (parameterName : string) (value : glm.vec4) : M Commands Z :=
  location ← GetUniformLocation parameterName;
  call (glUniform4fv location 1 value);;
  mret location.

Definition SetParameterv3 (parameterName : string) (value : glm.vec3) : M Commands Z :=
  location ← GetUniformLocation parameterName;
  call (glUniform3fv location 1 value);;
  mret location.

Definition SetParameterv2 (parameterName : string) (value : glm.vec2) : M Commands Z :=
  location ← GetUniformLocation parameterName;
  call (glUniform2fv location 1 value);;
  mret location.

Definition SetParamatermat4 (parameterName : string) (value : glm.mat4) : M Commands Z :=
  location ← GetUniformLocation parameterName;
  call (glUniformMatrix4fv location 1 GL_FALSE value);;
  mret location.

Definition SetMatrix (parameterName : string) (mat : glm.mat4) : M Commands Z :=
  location ← GetUniformLocation parameterName;
  call (glUniformMatrix4fv location 1 GL_FALSE mat);;
  mret location.

Definition SetParameterBool (parameterName : string) (value : bool) : M Commands Z :=
  result ← GetUniformLocation parameterName;
  call (glUniform1i result (if value then 1 else 0));;
  mret result.

(** The overloads taking the texture name as a [GLint]. *)
Definition ActivateTexture2D (samplerName : string) (textureName textureUnit : Z)
    : M Commands Z :=
  assert (textureUnit <? GL_MAX_COMBINED_TEXTURE_IMAGE_UNITS) assert_texture_unit_2D;;
  call (glActiveTexture (to_GLenum (GL_TEXTURE0 + textureUnit)));;
  call (glBindTexture GL_TEXTURE_2D (to_GLuint textureName));;
  location ← GetUniformLocation samplerName;
  call (glUniform1i location textureUnit);;
  mret location.

Definition ActivateTexture3D (samplerName : string) (textureName textureUnit : Z)
    : M Commands Z :=
  assert (textureUnit <? GL_MAX_COMBINED_TEXTURE_IMAGE_UNITS) assert_texture_unit_3D;;
  (* bind texture to texture unit *)
  call (glActiveTexture (to_GLenum (GL_TEXTURE0 + textureUnit)));;
  call (glBindTexture GL_TEXTURE_3D (to_GLuint textureName));;
  (* bind shader uniform location to texture unit *)
  location ← GetUniformLocation samplerName;
  call (glUniform1i location textureUnit);;
  mret location.

(** The overloads taking the texture object. *)
Definition ActivateTexture2D_texture (samplerName : string) (texture : Texture)
    (textureUnit : Z) : M Commands Z :=
  ActivateTexture2D samplerName (to_GLint (GetTextureID texture)) textureUnit.

Definition ActivateTexture3D_texture (samplerName : string) (texture : Texture)
    (textureUnit : Z) : M Commands Z :=
  ActivateTexture3D samplerName (to_GLint (GetTextureID texture)) textureUnit.

Definition SetParameterSampler2D (parameterName : string) (sampler : Sampler2D)
    : M Commands Z :=
  this ← get;
  ActivateTexture2D parameterName
    (to_GLint (GetTextureID (texture2D sampler))) (textureUnits this).

Definition SetParameterSampler3D (parameterName : string) (sampler : Sampler3D)
    : M Commands Z :=
  this ← get;
  ActivateTexture3D parameterName
    (to_GLint (GetTextureID (texture3D sampler))) (textureUnits this).

Definition pointLight_member (light : PointLight) (member : string) : string :=
  String.append (String.append "pointLights[" (to_string (index light))) member.

(** [parameterName] is not used: the two uniforms are named after the
    light's index. *)
Definition SetPointLight (parameterName : string) (light : PointLight)
    : M Commands Z :=
  location ← GetUniformLocation (pointLight_member light "].position");
  call (glUniform3fv location 1 (position light));;
  location ← (if location =? -1 then mret location
              else GetUniformLocation (pointLight_member light "].color"));
  call (glUniform3fv location 1 (color light));;
  mret location.

(** The [switch] of [setValue]; [result] starts at 0. *)
Definition setValue_switch (setting : ShaderParameter) (name : string)
    : M Commands Z :=
  match setting with
  | mat4Value value => SetParamatermat4 name value
  | vec4Value value => SetParameterv4 name value
  | vec3Value value => SetParameterv3 name value
  | vec2Value value => SetParameterv2 name value
  | floatValue value => SetParameterf name value
  | intValue value => SetParameteri name value
  | boolValue value => SetParameterBool name value
  | unsignedInt value => SetParameterui name value
  | sampler2DValue sampler => SetParameterSampler2D name sampler
  | sampler3DValue sampler => SetParameterSampler3D name sampler
  | pointLightValue light => SetPointLight name light
  | none => assert false assert_unrecognized_setting;; mret 0
  end.

Definition warning (name materialName : string) : string :=
  stream ["WARNING: parameter "; name; " was not found for material ";
          materialName; endl].

Definition setValue (setting : ShaderParameter) (name : string) : M Commands unit :=
  assert (negb (Type_eqb (getType setting) NONE)) assert_setting_not_NONE;;
  call glError;;
  result ← setValue_switch setting name;
  call glError;;
  if result =? -1 then
    this ← get;
    call (printf (warning name (Material.name (material this))))
  else mret tt.

Definition is_sampler (t : Type_) : bool :=
  Type_eqb t SAMPLER_2D || Type_eqb t SAMPLER_3D.

Definition set_textureUnits (n : Z) : M Commands unit :=
  this ← get; put (mk_Commands (material this) n).

(** The body of the range-for, once per entry, in order. *)
Fixpoint uploadParameters_for (group : ShaderParamsGroup) : M Commands unit :=
  match group with
  | [] => mret tt
  | (name, setting) :: rest =>
      call glError;;
      setValue setting name;;
      call glError;;
      this ← get;
      set_textureUnits
        (to_GLint (textureUnits this + (if is_sampler (getType setting) then 1 else 0)));;
      uploadParameters_for rest
  end.

Definition uploadParameters (group : ShaderParamsGroup) : M Commands unit :=
  set_textureUnits 0;;
  uploadParameters_for group;;
  set_textureUnits 0.

End WithDriver.

End Material.

(** ** ComputeShader.h *)

Module ComputeShader.

(** [size_t] is 64 bits wide on the platform of the header (OpenCL/OpenGL
    frameworks of macOS). *)
Definition SIZE_MAX : Z := 2 ^ 64 - 1.

(** The integral part of a float, fraction discarded; none for infinities
    and NaN. *)
Definition truncate (f : GLfloat) : option Z :=
  match f with
  | S754_zero _ => Some 0
  | S754_finite s m e =>
      let magnitude := Z.shiftl (Z.pos m) e in
      Some (if s then - magnitude else magnitude)
  | S754_infinity _ | S754_nan => None
  end.

(** Floating-integral conversion to [size_t]: the value is truncated, and
    the behaviour is undefined ([None]) when the truncated value is not
    representable. *)
Definition size_t_of_float (f : GLfloat) : option Z :=
  z ← truncate f;
  if (0 <=? z) && (z <=? SIZE_MAX) then Some z else None.

(** The float [f] has exactly the integer value [n]. *)
Definition represents (f : GLfloat) (n : Z) : Prop :=
  match f with
  | S754_zero _ => n = 0
  | S754_finite s m e =>
      let signed := if s then - Z.pos m else Z.pos m in
      match e with
      | Z.neg p => signed = n * 2 ^ Z.pos p
      | _ => signed * 2 ^ e = n
      end
  | S754_infinity _ | S754_nan => False
  end.

Definition MAX_IMAGES : Z := 9.

(** [size_t globalWorkSize[3]] *)
Record size_t3 := mk_size_t3 { elem0 : Z; elem1 : Z; elem2 : Z }.

Section Members.
(** The [Resource] base-class subobject is declared in Resource.h. *)
Context {Resource : Type}.

(** The data members, in declaration order. Handles are opaque. *)
Record ComputeShader := mk_ComputeShader {
  base : Resource;
  shareGroup : Z;
  program : Z;
  device_id : Z;
  context : Z;
  dispatch_queue : Z;
  command_queue : Z;
  workgroup_size : Z;
  kernel : Z;
  globalWorkSize : size_t3;
  image_objects : list Z;
  dimensions : Z;
  methodName : option string;
  images : gmap Z Z;
  argument_images : gmap Z Z
}.

Definition set_globalWorkSize (this : ComputeShader) (g : size_t3) : ComputeShader :=
  mk_ComputeShader (base this) (shareGroup this) (program this) (device_id this)
    (context this) (dispatch_queue this) (command_queue this)
    (workgroup_size this) (kernel this) g (image_objects this)
    (dimensions this) (methodName this) (images this) (argument_images this).

(** [globalWorkSize[i] = value] *)
Definition assign_elem (i : nat) (value : Z) (g : size_t3) : size_t3 :=
  match i with
  | 0%nat => mk_size_t3 value (elem1 g) (elem2 g)
  | 1%nat => mk_size_t3 (elem0 g) value (elem2 g)
  | _ => mk_size_t3 (elem0 g) (elem1 g) value
  end.

(** The three assignments of the inline body, each converting a [float]
    component to [size_t]. *)
Definition setGlobalWorkSize (globalSize : glm.vec3) (this : ComputeShader)
    : option ComputeShader :=
  gx ← size_t_of_float (glm.x globalSize);
  let this := set_globalWorkSize this (assign_elem 0 gx (globalWorkSize this)) in
  gy ← size_t_of_float (glm.y globalSize);
  let this := set_globalWorkSize this (assign_elem 1 gy (globalWorkSize this)) in
  gz ← size_t_of_float (glm.z globalSize);
  Some (set_globalWorkSize this (assign_elem 2 gz (globalWorkSize this))).

(** Every data member but [globalWorkSize] is the same in [a] and [b]. *)
Definition same_but_globalWorkSize (a b : ComputeShader) : Prop :=
  base a = base b /\ shareGroup a = shareGroup b /\ program a = program b /\
  device_id a = device_id b /\ context a = context b /\
  dispatch_queue a = dispatch_queue b /\ command_queue a = command_queue b /\
  workgroup_size a = workgroup_size b /\ kernel a = kernel b /\
  image_objects a = image_objects b /\ dimensions a = dimensions b /\
  methodName a = methodName b /\ images a = images b /\
  argument_images a = argument_images b.

(** The stored components have the values of the components of [v]. *)
Definition holds_components (v : glm.vec3) (this : ComputeShader) : Prop :=
  represents (glm.x v) (elem0 (globalWorkSize this)) /\
  represents (glm.y v) (elem1 (globalWorkSize this)) /\
  represents (glm.z v) (elem2 (globalWorkSize this)).

Definition getDispatchQueue (this : ComputeShader) : Z := dispatch_queue this.
Definition getShareGroupObj (this : ComputeShader) : Z := shareGroup this.
End Members.
Arguments ComputeShader : clear implicits.

(** *** The declared interface of the image-argument setters *)

Inductive c_type := c_void | c_GLint.

Definition c_type_eqb (a b : c_type) : bool :=
  match a, b with
  | c_void, c_void | c_GLint, c_GLint => true
  | _, _ => false
  end.

Inductive image_setter :=
| setWriteImage3DArgument
| setReadImage3DArgument
| setReadWriteImage3DArgument
| setWriteImage2DArgument
| setReadImage2DArgument
| setReadWriteImage2DArgument.

Definition image_setters : list image_setter :=
  [setWriteImage3DArgument; setReadImage3DArgument; setReadWriteImage3DArgument;
   setWriteImage2DArgument; setReadImage2DArgument; setReadWriteImage2DArgument].

(** The return type each declaration of the header carries. *)
Definition return_type (f : image_setter) : c_type :=
  match f with
  | setWriteImage3DArgument => c_GLint
  | setReadImage3DArgument => c_GLint
  | setReadWriteImage3DArgument => c_GLint
  | setWriteImage2DArgument => c_void
  | setReadImage2DArgument => c_void
  | setReadWriteImage2DArgument => c_void
  end.

(** A setter can report to its caller only if its call yields a value. *)
Definition returns_status (f : image_setter) : bool :=
  negb (c_type_eqb (return_type f) c_void).

End ComputeShader.

(** ** The image argument binder and the device manager

    ComputeShader.cpp, which defines the image setters, [addTexture], [init],
    [obtainGPUDevice] and [obtainCPUDevice], is not part of the excerpt; only
    their declarations are. The two modules below follow the specification. *)

Module ImageBinder.

(** Modelled from the spec: the access modes of an image binding
    (section 3); the definitions of the setters are missing. *)
Inductive AccessMode := ReadOnly | WriteOnly | ReadWrite.

(** Modelled from the spec: the dimensionality of an image binding
    (section 3). *)
Inductive Dimensionality := Image2D | Image3D.

(** Modelled from the spec: the per-call failures of the error taxonomy
    (section 7). *)
Inductive BindError :=
| ImageWrapFailed
| ArgumentIndexOutOfRange
| ImageTableFull.

(** Modelled from the spec: an image object, created by wrapping a texture
    ([addTexture] and the setters are missing); it is identified by the order
    of its creation. *)
Definition cl_image : Type := nat.

(** Modelled from the spec: an ImageBinding of section 3, the image object
    with the texture it wraps, its access mode and its dimensionality. *)
Record ImageBinding := mk_ImageBinding {
  image : cl_image;
  textureId : Z;
  access : AccessMode;
  dims : Dimensionality
}.

(** Modelled from the spec: the state of the Image Argument Binder (the
    definitions of the setters in ComputeShader.cpp are missing). A bounded
    table of the image objects that are alive, the binding of each argument
    index, and a record of the image objects created and released. *)
Record Kernel := mk_Kernel {
  argument_count : Z;
  image_table : gset cl_image;
  argument_images : gmap Z ImageBinding;
  created : nat;
  released : list cl_image
}.

(** The capacity of the table is the [MAX_IMAGES] of the header. *)
Definition capacity : nat := Z.to_nat ComputeShader.MAX_IMAGES.

(** Modelled from the spec: a kernel with no image bound yet (the
    constructor of ComputeShader is missing). *)
Definition new_kernel (argument_count : Z) : Kernel :=
  mk_Kernel argument_count ∅ ∅ 0 [].

Section WithBackend.
(** Whether the compute backend can wrap a texture (format supported and
    the wrap call succeeds). *)
Context (wrappable : Z -> AccessMode -> Dimensionality -> bool).

(** Modelled from the spec: section 4.3, the common body of the three
    bind calls (the definitions in ComputeShader.cpp are missing). The
    per-call failures leave the state as it was; on success the image
    object previously bound at [index], if any, is released before the new
    one is stored in the table and set as the argument at [index]. *)
Definition bindImage (mode : AccessMode) (index textureId : Z) (d : Dimensionality)
    (k : Kernel) : BindError + (Z * Kernel) :=
  if negb ((0 <=? index) && (index <? argument_count k)) then
    inl ArgumentIndexOutOfRange
  else if negb (wrappable textureId mode d) then
    inl ImageWrapFailed
  else
    let new := mk_ImageBinding (created k) textureId mode d in
    match argument_images k !! index with
    | Some prior =>
        inr (index,
             mk_Kernel (argument_count k)
               ({[image new]} ∪ (image_table k ∖ {[image prior]}))
               (<[index := new]> (argument_images k))
               (S (created k))
               (released k ++ [image prior]))
    | None =>
        if bool_decide (capacity ≤ size (image_table k))%nat then
          inl ImageTableFull
        else
          inr (index,
               mk_Kernel (argument_count k)
                 ({[image new]} ∪ image_table k)
                 (<[index := new]> (argument_images k))
                 (S (created k))
                 (released k))
    end.

(** Modelled from the spec: the preconditions of section 4.3, a valid
    triple: the index is within the declared argument count and the
    backend can wrap the texture. *)
Definition admissible (mode : AccessMode) (index tex : Z) (d : Dimensionality)
    (k : Kernel) : Prop :=
  0 <= index < argument_count k /\ wrappable tex mode d = true.

(** Modelled from the spec: the three contracts of section 4.3. *)
Definition bindWritableImage := bindImage WriteOnly.
Definition bindReadableImage := bindImage ReadOnly.
Definition bindReadWriteImage := bindImage ReadWrite.

(** Modelled from the spec: the arguments of one bind call. *)
Record request := mk_request {
  req_mode : AccessMode;
  req_index : Z;
  req_texture : Z;
  req_dims : Dimensionality
}.

(** Modelled from the spec: a valid request for an index that holds no
    image yet. *)
Definition fresh_request (k : Kernel) (r : request) : Prop :=
  argument_images k !! req_index r = None /\
  admissible (req_mode r) (req_index r) (req_texture r) (req_dims r) k.

(** Modelled from the spec: a run of bind calls, each on the state the
    previous one left, with the result every call returned. *)
Fixpoint bind_all (rs : list request) (k : Kernel)
    : list (BindError + Z) * Kernel :=
  match rs with
  | [] => ([], k)
  | r :: rest =>
      match bindImage (req_mode r) (req_index r) (req_texture r) (req_dims r) k with
      | inl e => let (out, k') := bind_all rest k in (inl e :: out, k')
      | inr (slot, k1) => let (out, k') := bind_all rest k1 in (inr slot :: out, k')
      end
  end.

(** Modelled from the spec: section 3, what holds of a binder state: the
    table is within its capacity; the image objects alive are those bound,
    each at one index; every object created is either alive or was
    released, once. *)
Record wf (k : Kernel) : Prop := mk_wf {
  wf_capacity : (size (image_table k) ≤ capacity)%nat;
  wf_live : forall h, h ∈ image_table k <->
              exists i b, argument_images k !! i = Some b /\ image b = h;
  wf_one_index : forall i j bi bj,
              argument_images k !! i = Some bi ->
              argument_images k !! j = Some bj ->
              image bi = image bj -> i = j;
  wf_created : forall h, (h < created k)%nat <->
              h ∈ image_table k \/ h ∈ released k;
  wf_alive_not_released : forall h, h ∈ image_table k -> h ∉ released k;
  wf_released_once : NoDup (released k)
}.

(** Modelled from the spec: the states a kernel goes through, from its
    creation on, by successful binds (a failed bind leaves the state). *)
Inductive reachable (n : Z) : Kernel -> Prop :=
| reachable_new : reachable n (new_kernel n)
| reachable_bind k mode index tex d slot k' :
    reachable n k ->
    bindImage mode index tex d k = inr (slot, k') ->
    reachable n k'.
End WithBackend.

End ImageBinder.

Module DeviceManager.

(** Modelled from the spec: the failures of section 4.1 and the result of
    [initialize() -> success|failure] (the definition of [init] is missing). *)
Inductive InitError := DeviceNotFound | CapabilityMissing | ContextCreationFailed.

(** Modelled from the spec: the result of [initialize]. *)
Inductive InitResult := success | failure (e : InitError).

(** Modelled from the spec: the steps an initialization goes through, in
    order. *)
Inductive step :=
| attempt_GPU
| attempt_CPU
| log_device_info (device : Z)
| create_context (device : Z).

(** Modelled from the spec: what the platform offers: the devices that
    can be acquired, whether a device supports the interop extension and
    whether a context can be created on it. *)
Record Platform := mk_Platform {
  gpu_device : option Z;
  cpu_device : option Z;
  interop_extension : Z -> bool;
  context_creation : Z -> bool
}.

(** Modelled from the spec: section 4.1, device acquisition (the
    definitions of [obtainGPUDevice] and [obtainCPUDevice] are missing). *)
Definition obtainDevice (p : Platform) : list step * option Z :=
  match gpu_device p with
  | Some d => ([attempt_GPU], Some d)
  | None => ([attempt_GPU; attempt_CPU], cpu_device p)
  end.

(** Modelled from the spec: section 4.1, [initialize() -> success|failure]
    (the definition of [init] is missing). *)
Definition initialize (p : Platform) : list step * InitResult :=
  match obtainDevice p with
  | (t, None) => (t, failure DeviceNotFound)
  | (t, Some d) =>
      if negb (interop_extension p d) then
        (t ++ [log_device_info d], failure CapabilityMissing)
      else if negb (context_creation p d) then
        (t ++ [log_device_info d; create_context d], failure ContextCreationFailed)
      else
        (t ++ [log_device_info d; create_context d], success)
  end.

(** Modelled from the spec: [bool init()], declared in the header and
    defined in the missing ComputeShader.cpp, as the status of
    [initialize]. *)
Definition init (p : Platform) : bool :=
  match snd (initialize p) with
  | success => true
  | failure _ => false
  end.

End DeviceManager.

(** ** Sample inputs *)

Module Samples.
Import ComputeShader.

(** Binary32 data with a 24-bit significand: 0.5, 1 and 64. *)
Definition float_half : GLfloat := S754_finite false 8388608 (-24).
Definition float_1 : GLfloat := S754_finite false 8388608 (-23).
Definition float_64 : GLfloat := S754_finite false 8388608 (-17).

Definition shader : ComputeShader unit :=
  mk_ComputeShader tt 1 2 3 4 5 6 256 7 (mk_size_t3 0 0 0)
    [0; 0; 0; 0; 0; 0; 0; 0; 0] 3 (Some "main") ∅ ∅.

Import ImageBinder.

Definition any_texture (tex : Z) (mode : AccessMode) (d : Dimensionality) : bool := true.

(** Ten write-only 3D images, textures 100..109, at the indices 0..9. *)
Definition ten_requests : list request :=
  map (fun i => mk_request WriteOnly i (100 + i) Image3D)
      [0; 1; 2; 3; 4; 5; 6; 7; 8; 9].

(** A kernel of four arguments with a read-only image bound at index 0. *)
Definition bound_once : Kernel :=
  match bindReadableImage any_texture 0 100 Image3D (new_kernel 4) with
  | inr (_, k) => k
  | inl _ => new_kernel 4
  end.

(** A platform with a GPU whose driver lacks the interop extension. *)
Definition gpu_without_interop : DeviceManager.Platform :=
  DeviceManager.mk_Platform (Some 1) None (fun _ => false) (fun _ => true).

Definition cpu_only : DeviceManager.Platform :=
  DeviceManager.mk_Platform None (Some 2) (fun _ => true) (fun _ => true).

Import ShaderParameter.

(** A linked program (name 3) that knows the uniforms M, albedo, voxels and
    the position member of light 0, and no other. *)
Definition driver : GLdriver :=
  mk_GLdriver
    (fun _ n =>
       if String.eqb n "M" then 0
       else if String.eqb n "albedo" then 1
       else if String.eqb n "voxels" then 2
       else if String.eqb n "pointLights[0].position" then 4
       else -1)
    3 (fun _ => 1) (fun _ => EmptyString).

Definition commands : Material.Commands :=
  Material.mk_Commands (Material.mk_Material "voxelization" 3) 0.

Definition float_0 : GLfloat := S754_zero false.
Definition vec3_1 : glm.vec3 := glm.mk_vec3 float_1 float_1 float_1.
Definition vec4_0 : glm.vec4 := glm.mk_vec4 float_0 float_0 float_0 float_0.
Definition mat4_0 : glm.mat4 := glm.mk_mat4 vec4_0 vec4_0 vec4_0 vec4_0.
Definition light_0 : PointLight := mk_PointLight 0 vec3_1 vec3_1.

Definition group : ShaderParamsGroup :=
  [("M", mat4Value mat4_0);
   ("albedo", sampler2DValue (mk_Sampler2D (mk_Texture 7)));
   ("missing", intValue 5);
   ("voxels", sampler3DValue (mk_Sampler3D (mk_Texture 9)));
   ("light", pointLightValue light_0)].

Definition vertex : Shader.Shader := Shader.mk_Shader Shader.VERTEX 10.
Definition fragment : Shader.Shader := Shader.mk_Shader Shader.FRAGMENT 11.
Definition tessEvaluation : Shader.Shader :=
  Shader.mk_Shader Shader.TESSELATION_EVALUATION 12.
Definition tessControl : Shader.Shader :=
  Shader.mk_Shader Shader.TESSELATION_CONTROL 13.
End Samples.

(** ** Statements about the uniform layer *)

Module UniformLayer.
Import Material ShaderParameter.

(** The eleven shader-parameter types of the specification: matrix4, vec4,
    vec3, vec2, float, int, unsigned-int, boolean, sampler2D, sampler3D and
    point-light-reference. *)
Definition enumerated (t : Type_) : Prop :=
  In t [MAT4; VEC4; VEC3; VEC2; FLOAT; INT; UINT; BOOLEAN;
        SAMPLER_2D; SAMPLER_3D; POINT_LIGHT].

(** The uniform an entry addresses: the entry's own name, except for a
    point light, whose uniforms are the members of [pointLights[index]]. *)
Definition uniform_name (name : string) (setting : ShaderParameter) : string :=
  match setting with
  | pointLightValue light => pointLight_member light "].position"
  | _ => name
  end.

(** The location the linked program of the material gives a name. *)
Definition location_of (gl : GLdriver) (m : Material) (n : string) : Z :=
  to_GLint (uniformLocation gl (program m) n).

Definition count_samplers (group : ShaderParamsGroup) : Z :=
  Z.of_nat (length (filter (fun e => is_sampler (getType (snd e)) = true) group)).

(** No assertion of the pass fails: no entry is of type NONE, and every
    sampler finds the counter below the asserted bound. *)
Definition asserts_hold (group : ShaderParamsGroup) : Prop :=
  Forall (fun e => enumerated (getType (snd e))) group /\
  count_samplers group <= GL_MAX_COMBINED_TEXTURE_IMAGE_UNITS.

(** The [Commands] object with its counter at [u]. *)
Definition at_unit (c : Commands) (u : Z) : Commands := mk_Commands (material c) u.

Definition texture_target (setting : ShaderParameter) : option (Z * Z) :=
  match setting with
  | sampler2DValue s => Some (GL_TEXTURE_2D, to_GLuint (GetTextureID (texture2D s)))
  | sampler3DValue s => Some (GL_TEXTURE_3D, to_GLuint (GetTextureID (texture3D s)))
  | _ => None
  end.

(** The number of sampler entries before position [i]. *)
Definition units_before (group : ShaderParamsGroup) (i : nat) : Z :=
  count_samplers (take i group).

(** What one turn of the loop of [uploadParameters] emits for an entry
    when the counter is at [u]. *)
Definition iteration (gl : GLdriver) (c : Commands) (u : Z)
    (entry : string * ShaderParameter) : list event :=
  glError :: trace (setValue gl (snd entry) (fst entry) (at_unit c u)) ++ [glError].

Definition is_texture_call (e : event) : Prop :=
  match e with
  | glActiveTexture _ | glBindTexture _ _ => True
  | _ => False
  end.

End UniformLayer.

(** ** Statements about passes and program assembly *)

Module PassStatements.
Import Material ShaderParameter UniformLayer.

(** The calls a pass may issue for a material whose program is [prog]:
    error checks, uniform lookups in that program, uniform uploads, texture
    activation and binding, and the warning. *)
Definition pass_event (prog : Z) (e : event) : Prop :=
  match e with
  | glError | glUniform1i _ _ | glUniform1ui _ _ | glUniform1f _ _
  | glUniform2fv _ _ _ | glUniform3fv _ _ _ | glUniform4fv _ _ _
  | glUniformMatrix4fv _ _ _ _ | glActiveTexture _ | glBindTexture _ _
  | printf _ => True
  | glGetUniformLocation p _ => p = prog
  | _ => False
  end.

(** The texture units a trace activates, in order. *)
Definition active_textures (t : list event) : list Z :=
  omap (fun e => match e with glActiveTexture u => Some u | _ => None end) t.

(** The texts a trace prints with [printf], in order. *)
Definition printed (t : list event) : list string :=
  omap (fun e => match e with printf text => Some text | _ => None end) t.

(** A shader pointer that is not null and points to a shader of type [ty]. *)
Definition has_type (ty : Shader.ShaderType) (sh : ShaderSharedPtr) : Prop :=
  exists s, sh = Some s /\ Shader.shaderType s = ty.

(** A shader pointer that is null or points to a shader of type [ty]. *)
Definition null_or_type (ty : Shader.ShaderType) (sh : ShaderSharedPtr) : Prop :=
  forall s, sh = Some s -> Shader.shaderType s = ty.

(** The conditions [AssembleProgram] asserts on its five arguments. *)
Definition shaders_ok (vertexShader fragmentShader geometryShader
    tessEvaluationShader tessControlShader : ShaderSharedPtr) : Prop :=
  has_type Shader.VERTEX vertexShader /\
  has_type Shader.FRAGMENT fragmentShader /\
  null_or_type Shader.GEOMETRY geometryShader /\
  null_or_type Shader.TESSELATION_EVALUATION tessEvaluationShader /\
  null_or_type Shader.TESSELATION_CONTROL tessControlShader.

(** One [glAttachShader] for each shader that is not null, in order. *)
Definition attached (prog : Z) (shaders : list ShaderSharedPtr) : list event :=
  map (fun sh => glAttachShader prog (ShaderID_of sh)) (omap id shaders).

End PassStatements.

(** ** Statements about the entries a pass reaches *)

Module UniformStatements.
Import Material ShaderParameter UniformLayer Samples.

(** The text of the warning: "WARNING: parameter %s was not found for
    material %s" and a newline, with the name of the entry and the name of the
    material. *)
Definition warning_text (name materialName : string) : string :=
  String.append "WARNING: parameter "
    (String.append name
       (String.append " was not found for material "
          (String.append materialName (String (ascii_of_nat 10) EmptyString)))).

(** The uniform of a member of a point light: [pointLights[i].member], with
    [i] the index of the light in decimal. *)
Definition light_uniform (light : PointLight) (member : string) : string :=
  String.append "pointLights["
    (String.append (NilZero.string_of_int (Z.to_int (index light)))
       (String.append "]." member)).

(** What resolving and uploading an entry is, for each declared type: the
    lookup of the entry's name in the program of the material followed by the
    typed upload call of the type, at the location found and with the entry's
    value (a sampler uploads the texture unit it was given). A point light
    looks up its position member and uploads its position there; when that
    resolved, it looks up its colour member and uploads its colour there;
    when it did not, it writes both to location -1 without a second lookup. *)
Definition typed_upload_calls (gl : GLdriver) (m : Material) (name : string)
    (setting : ShaderParameter) (unit : Z) : list event :=
  let prog := program m in
  let loc := location_of gl m in
  match setting with
  | mat4Value v =>
      [glGetUniformLocation prog name; glUniformMatrix4fv (loc name) 1 0 v]
  | vec4Value v => [glGetUniformLocation prog name; glUniform4fv (loc name) 1 v]
  | vec3Value v => [glGetUniformLocation prog name; glUniform3fv (loc name) 1 v]
  | vec2Value v => [glGetUniformLocation prog name; glUniform2fv (loc name) 1 v]
  | floatValue v => [glGetUniformLocation prog name; glUniform1f (loc name) v]
  | intValue v => [glGetUniformLocation prog name; glUniform1i (loc name) v]
  | unsignedInt v => [glGetUniformLocation prog name; glUniform1ui (loc name) v]
  | boolValue v =>
      [glGetUniformLocation prog name; glUniform1i (loc name) (if v then 1 else 0)]
  | sampler2DValue _ | sampler3DValue _ =>
      [glGetUniformLocation prog name; glUniform1i (loc name) unit]
  | pointLightValue light =>
      let position_name := light_uniform light "position" in
      let color_name := light_uniform light "color" in
      if loc position_name =? -1 then
        [glGetUniformLocation prog position_name;
         glUniform3fv (-1) 1 (position light);
         glUniform3fv (-1) 1 (color light)]
      else
        [glGetUniformLocation prog position_name;
         glUniform3fv (loc position_name) 1 (position light);
         glGetUniformLocation prog color_name;
         glUniform3fv (loc color_name) 1 (color light)]
  | none => []
  end.

(** The pass reaches entry [i] and no assertion fails before it or at it:
    no entry up to it is of type NONE, and the sampler entries up to and
    including it are at most as many as the asserted bound. *)
Definition reached (group : ShaderParamsGroup) (i : nat) : Prop :=
  asserts_hold (take (S i) group).

(** *** Sample inputs *)

Definition vec3_half : glm.vec3 := glm.mk_vec3 float_half float_half float_half.

Definition light_12 : PointLight := mk_PointLight 12 vec3_1 vec3_half.
Definition light_7 : PointLight := mk_PointLight 7 vec3_1 vec3_half.

(** A linked program (name 3) that knows the uniforms f, albedo, voxels and
    both members of light 12, and no other. *)
Definition driver_lights : GLdriver :=
  mk_GLdriver
    (fun _ n =>
       if String.eqb n "f" then 6
       else if String.eqb n "albedo" then 1
       else if String.eqb n "voxels" then 2
       else if String.eqb n "pointLights[12].position" then 4
       else if String.eqb n "pointLights[12].color" then 5
       else -1)
    3 (fun _ => 1) (fun _ => EmptyString).

Definition NONE_first : ShaderParamsGroup :=
  [("unset", none); ("f", floatValue float_1)].

Definition NONE_fourth : ShaderParamsGroup :=
  [("f", floatValue float_1);
   ("light", pointLightValue light_12);
   ("voxels", sampler3DValue (mk_Sampler3D (mk_Texture 9)));
   ("unset", none);
   ("albedo", sampler2DValue (mk_Sampler2D (mk_Texture 7)))].

Definition samplers_then_NONE : ShaderParamsGroup :=
  [("albedo", sampler2DValue (mk_Sampler2D (mk_Texture 7)));
   ("f", floatValue float_1);
   ("voxels", sampler3DValue (mk_Sampler3D (mk_Texture 9)));
   ("unset", none)].

Definition sampler_entry : string * ShaderParameter :=
  ("albedo", sampler2DValue (mk_Sampler2D (mk_Texture 7))).

(** A group of 35662 sampler entries. *)
Definition many_samplers : ShaderParamsGroup :=
  replicate (Z.to_nat 35662) sampler_entry.

End UniformStatements.

(** * Properties *)

Module GLFacts.

Lemma to_GLint_range z : in_GLint (to_GLint z).
Proof. unfold in_GLint, to_GLint. pose proof (Z.mod_pos_bound (z + 2 ^ 31) (2 ^ 32)). lia. Qed.

Lemma to_GLint_id z : in_GLint z -> to_GLint z = z.
Proof.
  unfold in_GLint, to_GLint. intros H.
  rewrite Z.mod_small by lia. lia.
Qed.

Lemma to_GLint_to_GLuint z : to_GLint (to_GLuint z) = to_GLint z.
Proof.
  unfold to_GLint, to_GLuint.
  rewrite Zplus_mod_idemp_l. reflexivity.
Qed.

Lemma to_GLint_idem z : to_GLint (to_GLint z) = to_GLint z.
Proof. apply to_GLint_id, to_GLint_range. Qed.

Lemma to_GLuint_to_GLint z : to_GLuint (to_GLint z) = to_GLuint z.
Proof.
  unfold to_GLint, to_GLuint.
  rewrite Zminus_mod_idemp_l.
  f_equal. lia.
Qed.

Lemma to_GLuint_id z : in_GLuint z -> to_GLuint z = z.
Proof. unfold in_GLuint, to_GLuint. intros H. apply Z.mod_small. lia. Qed.

End GLFacts.

Module MaterialFacts.
Import Material ShaderParameter UniformLayer GLFacts.

(** Unfolds a straight-line member function into its trace and outcome. *)
Ltac run :=
  cbv [mbind mret M_bind M_ret bind ret call get put assert
       setValue setValue_switch SetParameteri SetParameterui SetParameterf
       SetParameterv4 SetParameterv3 SetParameterv2 SetParamatermat4
       SetParameterBool SetParameterSampler2D SetParameterSampler3D
       SetPointLight ActivateTexture2D ActivateTexture3D GetUniformLocation
       set_textureUnits trace outcome fst snd app
       getType Type_eqb negb is_sampler orb].

(** Case analysis on the conditions a run depends on. *)
Ltac branches :=
  repeat (match goal with
          | |- context [if ?b then _ else _] => destruct b eqn:?
          end; cbv beta iota zeta).

Lemma enumerated_not_NONE t : enumerated t <-> t <> NONE.
Proof.
  unfold enumerated. cbn [In]. split.
  - intros H E. subst t. repeat (destruct H as [H|H]; try discriminate). exact H.
  - intros H. destruct t; tauto.
Qed.

Section WithDriver.
Context (gl : GLdriver).

Lemma bind_returned {S A B} (m : M S A) (k : A -> M S B) s t1 a s1 :
  m s = (t1, Returned a s1) ->
  (m ≫= k) s = (t1 ++ trace (k a s1), outcome (k a s1)).
Proof.
  intros H. cbv [mbind M_bind bind]. rewrite H.
  destruct (k a s1); reflexivity.
Qed.

Lemma bind_aborted {S A B} (m : M S A) (k : A -> M S B) s t1 why :
  m s = (t1, Aborted why) -> (m ≫= k) s = (t1, Aborted why).
Proof. intros H. cbv [mbind M_bind bind]. rewrite H. reflexivity. Qed.

Lemma setValue_returns setting name c :
  enumerated (getType setting) ->
  (is_sampler (getType setting) = true ->
   textureUnits c < GL_MAX_COMBINED_TEXTURE_IMAGE_UNITS) ->
  outcome (setValue gl setting name c) = Returned tt c.
Proof.
  intros Hty Hu. apply enumerated_not_NONE in Hty.
  destruct setting; try (exfalso; apply Hty; reflexivity);
    run; try (specialize (Hu eq_refl); apply Z.ltb_lt in Hu; rewrite Hu);
    branches; reflexivity.
Qed.

Lemma setValue_none name c :
  setValue gl none name c = ([], Aborted assert_setting_not_NONE).
Proof. reflexivity. Qed.

Lemma uploadParameters_for_cons name setting rest c :
  outcome (setValue gl setting name c) = Returned tt c ->
  uploadParameters_for gl ((name, setting) :: rest) c =
  let c' := at_unit c (to_GLint (textureUnits c +
              (if is_sampler (getType setting) then 1 else 0))) in
  (glError :: trace (setValue gl setting name c) ++
     glError :: trace (uploadParameters_for gl rest c'),
   outcome (uploadParameters_for gl rest c')).
Proof.
  intros H. cbn [uploadParameters_for].
  cbv [mbind M_bind bind call get put set_textureUnits trace outcome at_unit].
  destruct (setValue gl setting name c) as [t o]. cbn in H. subst o.
  cbv beta iota zeta.
  destruct (uploadParameters_for gl rest _) as [t' o']. cbn.
  reflexivity.
Qed.

Lemma uploadParameters_for_cons_aborted name setting rest c why :
  outcome (setValue gl setting name c) = Aborted why ->
  uploadParameters_for gl ((name, setting) :: rest) c =
  (glError :: trace (setValue gl setting name c), Aborted why).
Proof.
  intros H. cbn [uploadParameters_for].
  cbv [mbind M_bind bind call get put set_textureUnits trace outcome].
  destruct (setValue gl setting name c) as [t o]. cbn in H. subst o.
  reflexivity.
Qed.

Lemma count_samplers_cons e rest :
  count_samplers (e :: rest) =
  (if is_sampler (getType (snd e)) then 1 else 0) + count_samplers rest.
Proof.
  unfold count_samplers. rewrite filter_cons.
  destruct (is_sampler (getType e.2)); case_decide; try congruence;
    cbn [length]; lia.
Qed.

Lemma count_samplers_nonneg group : 0 <= count_samplers group.
Proof. unfold count_samplers. lia. Qed.

Lemma at_unit_textureUnits c : at_unit c (textureUnits c) = c.
Proof. destruct c; reflexivity. Qed.

(** The loop, when no assertion fails: one [iteration] per entry, each
    with the counter at the number of samplers before it. *)
Lemma uploadParameters_for_run group : forall c u,
  0 <= u ->
  Forall (fun e => enumerated (getType (snd e))) group ->
  u + count_samplers group <= GL_MAX_COMBINED_TEXTURE_IMAGE_UNITS ->
  uploadParameters_for gl group (at_unit c u) =
  (concat (imap (fun i e => iteration gl c (u + units_before group i) e) group),
   Returned tt (at_unit c (u + count_samplers group))).
Proof.
  induction group as [|[name setting] rest IH]; intros c u Hu Hty Hmax.
  - cbn. unfold count_samplers. cbn. rewrite Z.add_0_r. reflexivity.
  - apply Forall_cons in Hty as [Hty Hrest].
    rewrite count_samplers_cons in Hmax. cbn [snd] in Hmax, Hty.
    pose proof (count_samplers_nonneg rest) as Hnn.
    assert (Hret : outcome (setValue gl setting name (at_unit c u)) =
                   Returned tt (at_unit c u)).
    { apply setValue_returns; [exact Hty|]. intros Hs. cbn. rewrite Hs in Hmax. lia. }
    rewrite (uploadParameters_for_cons _ _ _ _ Hret). cbv zeta.
    cbn [textureUnits at_unit material].
    set (d := if is_sampler (getType setting) then 1 else 0) in *.
    assert (Hd : 0 <= d <= 1) by (subst d; destruct (is_sampler _); lia).
    rewrite to_GLint_id
      by (unfold in_GLint; unfold GL_MAX_COMBINED_TEXTURE_IMAGE_UNITS in Hmax; lia).
    specialize (IH c (u + d) ltac:(lia) Hrest ltac:(lia)).
    change (at_unit (at_unit c u) (u + d)) with (at_unit c (u + d)). rewrite IH.
    cbn [trace outcome fst snd]. f_equal.
    + rewrite imap_cons. cbn [concat].
      assert (H0 : iteration gl c (u + units_before ((name, setting) :: rest) 0)
                     (name, setting) =
                   glError :: trace (setValue gl setting name (at_unit c u)) ++ [glError]).
      { unfold iteration, units_before, count_samplers.
        cbn [take filter list_filter length Z.of_nat fst snd].
        rewrite Z.add_0_r. reflexivity. }
      rewrite H0. cbn [app]. rewrite <- app_assoc. cbn [app].
      do 4 f_equal.
      apply imap_ext. intros i e _. cbv [compose].
      unfold units_before. cbn [take]. rewrite count_samplers_cons.
      cbn [snd]. fold d. rewrite Z.add_assoc. reflexivity.
    + rewrite count_samplers_cons. cbn [snd]. fold d.
      rewrite Z.add_assoc. reflexivity.
Qed.

Lemma setValue_unit_assert setting name c :
  is_sampler (getType setting) = true ->
  GL_MAX_COMBINED_TEXTURE_IMAGE_UNITS <= textureUnits c ->
  exists why, setValue gl setting name c = ([glError], Aborted why).
Proof.
  intros Hs Hu. apply Z.ltb_ge in Hu.
  destruct setting; try discriminate; run; rewrite Hu; eexists; reflexivity.
Qed.

(** Outside these conditions an assertion stops the loop. *)
Lemma uploadParameters_for_aborts group : forall c u,
  0 <= u <= GL_MAX_COMBINED_TEXTURE_IMAGE_UNITS ->
  ~ (Forall (fun e => enumerated (getType (snd e))) group /\
     u + count_samplers group <= GL_MAX_COMBINED_TEXTURE_IMAGE_UNITS) ->
  exists t why, uploadParameters_for gl group (at_unit c u) = (t, Aborted why).
Proof.
  induction group as [|[name setting] rest IH]; intros c u Hu Hnot.
  - exfalso. apply Hnot. split; [constructor|].
    change (count_samplers []) with 0. lia.
  - destruct (decide (getType setting = NONE)) as [Hnone|Hty].
    + destruct setting; try discriminate.
      rewrite (uploadParameters_for_cons_aborted _ _ _ _ assert_setting_not_NONE)
        by reflexivity.
      eauto.
    + apply enumerated_not_NONE in Hty.
      destruct (is_sampler (getType setting)) eqn:Hs.
      * destruct (Z_lt_le_dec u GL_MAX_COMBINED_TEXTURE_IMAGE_UNITS) as [Hlt|Hge].
        -- rewrite uploadParameters_for_cons
             by (apply setValue_returns; [exact Hty|intros _; exact Hlt]).
           cbv zeta. rewrite Hs. cbn [textureUnits at_unit material].
           rewrite to_GLint_id
             by (unfold in_GLint;
                 unfold GL_MAX_COMBINED_TEXTURE_IMAGE_UNITS in Hu, Hlt; lia).
           change (at_unit (at_unit c u) (u + 1)) with (at_unit c (u + 1)).
           destruct (IH c (u + 1) ltac:(lia)) as (t & why & Hrun).
           { intros [Hall Hmax]. apply Hnot. split; [constructor; assumption|].
             rewrite count_samplers_cons. cbn [snd]. rewrite Hs. lia. }
           rewrite Hrun. cbn [trace outcome fst snd]. eauto.
        -- destruct (setValue_unit_assert setting name (at_unit c u) Hs Hge)
             as (why & Hrun).
           rewrite (uploadParameters_for_cons_aborted _ _ _ _ why)
             by (rewrite Hrun; reflexivity).
           eauto.
      * rewrite uploadParameters_for_cons
          by (apply setValue_returns; [exact Hty|congruence]).
        cbv zeta. rewrite Hs. cbn [textureUnits at_unit material].
        rewrite Z.add_0_r.
        rewrite to_GLint_id
          by (unfold in_GLint; unfold GL_MAX_COMBINED_TEXTURE_IMAGE_UNITS in Hu; lia).
        change (at_unit (at_unit c u) u) with (at_unit c u).
        destruct (IH c u Hu) as (t & why & Hrun).
        { intros [Hall Hmax]. apply Hnot. split; [constructor; assumption|].
          rewrite count_samplers_cons. cbn [snd]. rewrite Hs. lia. }
        rewrite Hrun. cbn [trace outcome fst snd]. eauto.
Qed.

Lemma uploadParameters_run group c :
  asserts_hold group ->
  uploadParameters gl group c =
  (concat (imap (fun i e => iteration gl c (units_before group i) e) group),
   Returned tt (at_unit c 0)).
Proof.
  intros [Hty Hmax]. unfold uploadParameters.
  cbv [mbind M_bind bind set_textureUnits get put].
  pose proof (uploadParameters_for_run group c 0 ltac:(lia) Hty ltac:(lia)) as H.
  unfold at_unit in H. rewrite H. cbn.
  rewrite app_nil_r. reflexivity.
Qed.

Lemma asserts_hold_dec group : asserts_hold group \/ ~ asserts_hold group.
Proof.
  unfold asserts_hold.
  destruct (decide (Forall (fun e : string * ShaderParameter =>
                              getType (snd e) <> NONE) group)) as [H|H].
  - destruct (Z_le_dec (count_samplers group) GL_MAX_COMBINED_TEXTURE_IMAGE_UNITS).
    + left. split; [|assumption].
      eapply Forall_impl; [exact H|]. intros x Hx. apply enumerated_not_NONE, Hx.
    + right. tauto.
  - right. intros [Hall _]. apply H.
    eapply Forall_impl; [exact Hall|]. intros x Hx. apply enumerated_not_NONE, Hx.
Qed.

(** The pass returns exactly on the groups on which no assertion fails. *)
Lemma uploadParameters_returns_iff group c :
  (exists t c', uploadParameters gl group c = (t, Returned tt c')) <->
  asserts_hold group.
Proof.
  split.
  - intros (t & c' & Hrun).
    destruct (asserts_hold_dec group) as [Hok|Hnot]; [exact Hok|].
    exfalso.
    destruct (uploadParameters_for_aborts group c 0
                ltac:(unfold GL_MAX_COMBINED_TEXTURE_IMAGE_UNITS; lia))
      as (t' & why & Hab).
    { intros [Hall Hmax]. apply Hnot. split; assumption. }
    unfold uploadParameters in Hrun.
    cbv [mbind M_bind bind set_textureUnits get put] in Hrun.
    unfold at_unit in Hab. rewrite Hab in Hrun. discriminate.
  - intros Hok. rewrite (uploadParameters_run group c Hok). eauto.
Qed.


Lemma concat_imap_lookup {A B} (l : list A) : forall (f : nat -> A -> list B) i x,
  l !! i = Some x ->
  exists pre post, concat (imap f l) = pre ++ f i x ++ post.
Proof.
  induction l as [|a l IH]; intros f i x Hi; [discriminate|].
  rewrite imap_cons. cbn [concat]. destruct i as [|i].
  - injection Hi as ->. exists [], (concat (imap (f ∘ S) l)). reflexivity.
  - cbn in Hi. destruct (IH (f ∘ S) i x Hi) as (pre & post & ->).
    exists (f 0%nat a ++ pre), post. rewrite <- app_assoc. reflexivity.
Qed.

Lemma count_samplers_app g1 g2 :
  count_samplers (g1 ++ g2) = count_samplers g1 + count_samplers g2.
Proof.
  unfold count_samplers. rewrite filter_app, length_app. lia.
Qed.

Lemma units_before_lookup group i e :
  group !! i = Some e ->
  count_samplers group =
  units_before group i + (if is_sampler (getType (snd e)) then 1 else 0)
  + count_samplers (drop (S i) group).
Proof.
  intros Hi. rewrite <- (take_drop_middle group i e Hi) at 1.
  rewrite count_samplers_app, count_samplers_cons. unfold units_before. lia.
Qed.

Lemma units_before_S group i e :
  group !! i = Some e ->
  units_before group (S i) =
  units_before group i + (if is_sampler (getType (snd e)) then 1 else 0).
Proof.
  intros Hi. unfold units_before.
  rewrite (take_S_r group i e Hi), count_samplers_app, count_samplers_cons.
  change (count_samplers []) with 0. lia.
Qed.

Lemma units_before_nonneg group i : 0 <= units_before group i.
Proof. apply count_samplers_nonneg. Qed.

(** The counter an entry of a pass finds is below the asserted bound when
    the entry is a sampler. *)
Lemma units_before_bound group i e :
  asserts_hold group ->
  group !! i = Some e ->
  is_sampler (getType (snd e)) = true ->
  units_before group i < GL_MAX_COMBINED_TEXTURE_IMAGE_UNITS.
Proof.
  intros [_ Hmax] Hi Hs.
  pose proof (units_before_lookup group i e Hi) as H. rewrite Hs in H.
  pose proof (count_samplers_nonneg (drop (S i) group)). lia.
Qed.

Lemma iteration_sampler name setting target tex c u :
  texture_target setting = Some (target, tex) ->
  0 <= u < GL_MAX_COMBINED_TEXTURE_IMAGE_UNITS ->
  iteration gl c u (name, setting) =
  [glError; glError;
   glActiveTexture (GL_TEXTURE0 + u);
   glBindTexture target tex;
   glGetUniformLocation (program (material c)) name;
   glUniform1i (location_of gl (material c) name) u;
   glError]
  ++ (if location_of gl (material c) name =? -1
      then [printf (warning name (Material.name (material c)))] else [])
  ++ [glError].
Proof.
  intros Ht Hu. unfold iteration, location_of. cbn [fst snd].
  assert (Hlt : (u <? GL_MAX_COMBINED_TEXTURE_IMAGE_UNITS) = true)
    by (apply Z.ltb_lt; lia).
  assert (Henum : to_GLenum (GL_TEXTURE0 + u) = GL_TEXTURE0 + u).
  { apply to_GLuint_id. unfold in_GLuint, GL_TEXTURE0.
    unfold GL_MAX_COMBINED_TEXTURE_IMAGE_UNITS in Hu. lia. }
  destruct setting; try discriminate; cbn in Ht; injection Ht as <- <-;
    run; cbn [material textureUnits at_unit];
    rewrite Hlt; cbn [material textureUnits at_unit];
    rewrite Henum, to_GLuint_to_GLint; branches; reflexivity.
Qed.

Lemma iteration_other name setting c u :
  texture_target setting = None ->
  Forall (fun e => ~ is_texture_call e) (iteration gl c u (name, setting)).
Proof.
  intros Ht. unfold iteration. cbn [fst snd].
  destruct setting; try discriminate; run; branches;
    repeat constructor; cbn; tauto.
Qed.

(** The typed upload calls leave the [Commands] object as it was. *)
Lemma setValue_switch_state setting name c t r c1 :
  setValue_switch gl setting name c = (t, Returned r c1) -> c1 = c.
Proof.
  destruct setting; run; branches; intros H; try discriminate;
    injection H as _ _ <-; reflexivity.
Qed.

Lemma setValue_of_switch setting name c t r :
  enumerated (getType setting) ->
  setValue_switch gl setting name c = (t, Returned r c) ->
  setValue gl setting name c =
  (glError :: t ++ glError ::
     (if r =? -1 then [printf (warning name (Material.name (material c)))]
      else []),
   Returned tt c).
Proof.
  intros Hty Hsw. apply enumerated_not_NONE in Hty. unfold setValue.
  assert (Hn : negb (Type_eqb (getType setting) NONE) = true)
    by (destruct setting; try reflexivity; exfalso; apply Hty; reflexivity).
  rewrite Hn. cbv [mbind M_bind bind assert call get mret M_ret ret].
  rewrite Hsw. destruct (r =? -1); reflexivity.
Qed.

(** A name the linked program does not know makes the typed call return
    -1: directly for the ten value and sampler types, and for a light as
    soon as its position member is unknown. *)
Lemma unresolved_returns_minus_one setting name c :
  enumerated (getType setting) ->
  (is_sampler (getType setting) = true ->
   textureUnits c < GL_MAX_COMBINED_TEXTURE_IMAGE_UNITS) ->
  location_of gl (material c) (uniform_name name setting) = -1 ->
  exists t, setValue_switch gl setting name c = (t, Returned (-1) c).
Proof.
  intros Hty Hu. apply enumerated_not_NONE in Hty. unfold location_of.
  destruct setting; try (exfalso; apply Hty; reflexivity);
    cbn [uniform_name]; intros Hloc;
    try (specialize (Hu eq_refl); apply Z.ltb_lt in Hu);
    run; rewrite ?Hu, Hloc; cbn; eexists; reflexivity.
Qed.

Lemma append_inj_r (a b b' : string) :
  String.append a b = String.append a b' -> b = b'.
Proof.
  induction a as [|ch a IH]; cbn; intros H; [exact H|].
  injection H as H. exact (IH H).
Qed.

Lemma pointLight_members_differ light :
  pointLight_member light "].color" <> pointLight_member light "].position".
Proof.
  unfold pointLight_member. intros H.
  apply append_inj_r in H. discriminate.
Qed.

Ltac run_ctor :=
  cbv [Material_ctor AssembleProgram mbind mret M_bind M_ret bind ret call
       get put assert trace outcome fst snd app bool_decide decide_rel
       is_Some_dec Shader.ShaderType_eqb].

(** Whatever shader is passed for tessellation control, one of the two
    tessellation assertions stops the constructor: the same shader would
    have to be of both types. *)
Lemma Material_ctor_tessControl_aborts _name vs fs tcs te indeterminate :
  Shader.shaderType vs = Shader.VERTEX ->
  Shader.shaderType fs = Shader.FRAGMENT ->
  exists why,
    outcome (Material_ctor gl _name (Some vs) (Some fs) None te (Some tcs)
               indeterminate) = Aborted why /\
    (why = assert_tessEvaluationShader_type \/
     why = assert_tessControlShader_type).
Proof.
  intros Hv Hf. run_ctor. rewrite Hv, Hf.
  destruct (Shader.shaderType tcs); cbv beta iota zeta; eauto.
Qed.

(** C9. The constructor hands its [tessControlShader] argument to
    [AssembleProgram] both as the tessellation-evaluation and as the
    tessellation-control shader, so the result does not depend on the
    [tessEvaluationShader] argument, which is never attached; and when a
    tessellation-control shader is supplied (with vertex, fragment and
    geometry shaders that pass their own assertions), the assertion that
    the tessellation-evaluation parameter has type TESSELATION_EVALUATION
    fails, after the other shaders were attached. *)
Theorem Material_ctor_tessControl_twice
    _name vertexShader fragmentShader geometryShader
    tessEvaluationShader tessControlShader indeterminate :
  Material_ctor gl _name vertexShader fragmentShader geometryShader
    tessEvaluationShader tessControlShader indeterminate =
  AssembleProgram gl vertexShader fragmentShader geometryShader
    tessControlShader tessControlShader (mk_Material _name indeterminate) /\
  (forall other,
     Material_ctor gl _name vertexShader fragmentShader geometryShader
       other tessControlShader indeterminate =
     Material_ctor gl _name vertexShader fragmentShader geometryShader
       tessEvaluationShader tessControlShader indeterminate) /\
  (forall vs fs tcs,
     vertexShader = Some vs -> Shader.shaderType vs = Shader.VERTEX ->
     fragmentShader = Some fs -> Shader.shaderType fs = Shader.FRAGMENT ->
     (forall gs, geometryShader = Some gs ->
                 Shader.shaderType gs = Shader.GEOMETRY) ->
     tessControlShader = Some tcs ->
     Shader.shaderType tcs = Shader.TESSELATION_CONTROL ->
     let program := to_GLuint (newProgram gl) in
     Material_ctor gl _name vertexShader fragmentShader geometryShader
       tessEvaluationShader tessControlShader indeterminate =
     ([glCreateProgram;
       glAttachShader program (ShaderID_of vs);
       glAttachShader program (ShaderID_of fs)] ++
      match geometryShader with
      | Some gs => [glAttachShader program (ShaderID_of gs)]
      | None => []
      end,
      Aborted assert_tessEvaluationShader_type)).
Proof.
  split; [reflexivity|]. split; [reflexivity|].
  intros vs fs tcs -> Hv -> Hf Hg -> Htc program.
  run_ctor. rewrite Hv, Hf, Htc.
  destruct geometryShader as [gs|].
  - rewrite (Hg gs eq_refl). reflexivity.
  - reflexivity.
Qed.
End WithDriver.

Import Samples.

Lemma group_asserts_hold : asserts_hold group.
Proof.
  split.
  - unfold group. repeat constructor; apply enumerated_not_NONE; discriminate.
  - vm_compute. discriminate.
Defined.

Lemma Material_ctor_tessControl_twice_witness :
  Material_ctor driver "voxelization" (Some vertex) (Some fragment) None
    (Some tessEvaluation) (Some tessControl) 0 =
  ([glCreateProgram; glAttachShader 3 10; glAttachShader 3 11],
   Aborted assert_tessEvaluationShader_type).
Proof.
  exact (proj2 (proj2 (Material_ctor_tessControl_twice driver "voxelization"
                         (Some vertex) (Some fragment) None
                         (Some tessEvaluation) (Some tessControl) 0))
           vertex fragment tessControl eq_refl eq_refl eq_refl eq_refl
           ltac:(discriminate) eq_refl eq_refl).
Defined.

End MaterialFacts.

Module ComputeShaderFacts.
Import ComputeShader Samples.

(** C4. Of the six image-argument setters the header declares, the three
    3D ones return a [GLint] to their caller and the three 2D ones are
    declared [void]: a 2D binding hands its caller neither an argument slot
    nor an error status. *)
Theorem image2D_setters_return_nothing :
  map return_type image_setters =
    [c_GLint; c_GLint; c_GLint; c_void; c_void; c_void] /\
  filter (fun f => returns_status f = false) image_setters =
    [setWriteImage2DArgument; setReadImage2DArgument; setReadWriteImage2DArgument].
Proof. split; reflexivity. Qed.

Lemma truncate_represents f n : represents f n -> truncate f = Some n.
Proof.
  destruct f as [s|s| |s m e]; cbn; try tauto.
  - intros ->. reflexivity.
  - destruct e as [|p|p]; intros H; f_equal.
    + rewrite Z.shiftl_0_r. rewrite Z.pow_0_r, Z.mul_1_r in H. exact H.
    + rewrite Z.shiftl_mul_pow2 by lia. destruct s; lia.
    + change (Z.shiftl (Z.pos m) (Z.neg p)) with (Z.shiftr (Z.pos m) (Z.pos p)).
      rewrite Z.shiftr_div_pow2 by lia.
      assert (Hp : 0 < 2 ^ Z.pos p) by (apply Z.pow_pos_nonneg; lia).
      destruct s.
      * assert (Hm : Z.pos m = (- n) * 2 ^ Z.pos p) by lia.
        rewrite Hm, Z.div_mul by lia. lia.
      * rewrite H, Z.div_mul by lia. reflexivity.
Qed.

(** A component that is a whole number within the range of [size_t] is
    stored as it is. *)
Lemma size_t_of_float_exact f n :
  represents f n -> 0 <= n <= SIZE_MAX -> size_t_of_float f = Some n.
Proof.
  intros Hr Hn. unfold size_t_of_float. rewrite (truncate_represents f n Hr).
  cbn. destruct (Z.leb_spec 0 n); [|lia]. destruct (Z.leb_spec n SIZE_MAX); [|lia].
  reflexivity.
Qed.


Section Members.
Context {Resource : Type}.
Implicit Types this : ComputeShader Resource.

Lemma setGlobalWorkSize_defined v this gx gy gz :
  size_t_of_float (glm.x v) = Some gx ->
  size_t_of_float (glm.y v) = Some gy ->
  size_t_of_float (glm.z v) = Some gz ->
  setGlobalWorkSize v this =
  Some (set_globalWorkSize this (mk_size_t3 gx gy gz)).
Proof.
  intros Hx Hy Hz. unfold setGlobalWorkSize.
  rewrite Hx. cbn [mbind option_bind]. rewrite Hy. cbn [mbind option_bind].
  rewrite Hz. reflexivity.
Qed.

(** C7, as amended. [setGlobalWorkSize(v)] stores in the three components
    of [globalWorkSize] the components of [v] converted to [size_t], that
    is truncated toward zero (the call is defined when the three truncated
    values are representable in [size_t]); a component that is a whole
    number in range is stored exactly. No other data member changes, and a
    later call replaces the extent, whatever the earlier one stored. *)
Theorem setGlobalWorkSize_frame v this gx gy gz :
  size_t_of_float (glm.x v) = Some gx ->
  size_t_of_float (glm.y v) = Some gy ->
  size_t_of_float (glm.z v) = Some gz ->
  exists this',
    setGlobalWorkSize v this = Some this' /\
    globalWorkSize this' = mk_size_t3 gx gy gz /\
    same_but_globalWorkSize this' this /\
    (forall nx ny nz,
       represents (glm.x v) nx -> 0 <= nx <= SIZE_MAX ->
       represents (glm.y v) ny -> 0 <= ny <= SIZE_MAX ->
       represents (glm.z v) nz -> 0 <= nz <= SIZE_MAX ->
       holds_components v this') /\
    (forall v2, setGlobalWorkSize v2 this' = setGlobalWorkSize v2 this).
Proof.
  intros Hx Hy Hz. eexists. split; [apply setGlobalWorkSize_defined; eassumption|].
  split; [reflexivity|]. split; [repeat split|]. split.
  - intros nx ny nz Rx Bx Ry By Rz Bz.
    rewrite (size_t_of_float_exact _ _ Rx Bx) in Hx.
    rewrite (size_t_of_float_exact _ _ Ry By) in Hy.
    rewrite (size_t_of_float_exact _ _ Rz Bz) in Hz.
    injection Hx as <-. injection Hy as <-. injection Hz as <-.
    repeat split; assumption.
  - intros v2. unfold setGlobalWorkSize.
    destruct (size_t_of_float (glm.x v2)); [|reflexivity]. cbn [mbind option_bind].
    destruct (size_t_of_float (glm.y v2)); [|reflexivity]. cbn [mbind option_bind].
    destruct (size_t_of_float (glm.z v2)); reflexivity.
Qed.
End Members.

(** C7, as stated, fails: for the extent (0.5, 1, 1) the first stored
    component is 0, not 0.5. *)
Lemma setGlobalWorkSize_truncates_fraction :
  let v := glm.mk_vec3 float_half float_1 float_1 in
  setGlobalWorkSize v shader =
    Some (set_globalWorkSize shader (mk_size_t3 0 1 1)) /\
  ~ (exists this', setGlobalWorkSize v shader = Some this' /\
                   holds_components v this').
Proof.
  split; [reflexivity|].
  intros (this' & Hset & Hx & _).
  assert (Hs : setGlobalWorkSize (glm.mk_vec3 float_half float_1 float_1) shader
               = Some (set_globalWorkSize shader (mk_size_t3 0 1 1)))
    by reflexivity.
  rewrite Hs in Hset. injection Hset as <-.
  cbn in Hx. lia.
Qed.

Lemma setGlobalWorkSize_frame_witness :
  let v := glm.mk_vec3 float_64 float_64 float_64 in
  size_t_of_float (glm.x v) = Some 64 /\
  size_t_of_float (glm.y v) = Some 64 /\
  size_t_of_float (glm.z v) = Some 64 /\
  exists this',
    setGlobalWorkSize v shader = Some this' /\
    globalWorkSize this' = mk_size_t3 64 64 64.
Proof.
  cbv zeta. split; [reflexivity|]. split; [reflexivity|]. split; [reflexivity|].
  destruct (setGlobalWorkSize_frame
              (glm.mk_vec3 float_64 float_64 float_64) shader 64 64 64
              eq_refl eq_refl eq_refl) as (this' & H1 & H2 & _).
  exists this'. split; assumption.
Defined.

End ComputeShaderFacts.

Module ImageBinderFacts.
Import ImageBinder.

Section WithBackend.
Context (wrappable : Z -> AccessMode -> Dimensionality -> bool).

Lemma new_kernel_wf n : wf (new_kernel n).
Proof.
  constructor; cbn.
  - rewrite size_empty. lia.
  - intros h. split; [set_solver|]. intros (i & b & Hi & _).
    rewrite lookup_empty in Hi. discriminate.
  - intros i j bi bj Hi. rewrite lookup_empty in Hi. discriminate.
  - intros h. split; [lia|]. intros [H|H]; [set_solver|]. inversion H.
  - set_solver.
  - constructor.
Qed.

Lemma bindImage_admissible mode index tex d k :
  admissible wrappable mode index tex d k ->
  bindImage wrappable mode index tex d k =
  let new := mk_ImageBinding (created k) tex mode d in
  match argument_images k !! index with
  | Some prior =>
      inr (index,
           mk_Kernel (argument_count k)
             ({[image new]} ∪ (image_table k ∖ {[image prior]}))
             (<[index := new]> (argument_images k))
             (S (created k))
             (released k ++ [image prior]))
  | None =>
      if bool_decide (capacity ≤ size (image_table k))%nat then
        inl ImageTableFull
      else
        inr (index,
             mk_Kernel (argument_count k)
               ({[image new]} ∪ image_table k)
               (<[index := new]> (argument_images k))
               (S (created k))
               (released k))
  end.
Proof.
  intros [[H0 H1] Hw]. unfold bindImage.
  apply Z.leb_le in H0. apply Z.ltb_lt in H1.
  rewrite H0, H1, Hw. reflexivity.
Qed.

Lemma bindImage_success_admissible mode index tex d k slot k' :
  bindImage wrappable mode index tex d k = inr (slot, k') ->
  admissible wrappable mode index tex d k.
Proof.
  unfold bindImage, admissible.
  destruct (Z.leb_spec 0 index), (Z.ltb_spec index (argument_count k));
    cbn; try discriminate.
  destruct (wrappable tex mode d); cbn; try discriminate.
  intros _. split; [lia|reflexivity].
Qed.

Lemma created_fresh k :
  wf k -> (created k ∉ image_table k) /\ (created k ∉ released k).
Proof.
  intros Hwf. split; intros H.
  - assert (created k < created k)%nat by (apply (wf_created k Hwf); left; exact H). lia.
  - assert (created k < created k)%nat by (apply (wf_created k Hwf); right; exact H). lia.
Qed.

Lemma bindImage_argument_count mode index tex d k slot k' :
  bindImage wrappable mode index tex d k = inr (slot, k') ->
  argument_count k' = argument_count k /\ slot = index.
Proof.
  intros H. pose proof (bindImage_success_admissible _ _ _ _ _ _ _ H) as Ha.
  rewrite (bindImage_admissible _ _ _ _ _ Ha) in H. cbv zeta in H.
  destruct (argument_images k !! index).
  - injection H as <- <-. split; reflexivity.
  - case_bool_decide; [discriminate|]. injection H as <- <-. split; reflexivity.
Qed.

(** Binding at an index that has no image yet, with room in the table. *)
Lemma bind_fresh_wf k idx new :
  wf k ->
  argument_images k !! idx = None ->
  (size (image_table k) < capacity)%nat ->
  image new = created k ->
  wf (mk_Kernel (argument_count k) ({[image new]} ∪ image_table k)
        (<[idx := new]> (argument_images k)) (S (created k)) (released k)).
Proof.
  intros Hwf Hnone Hroom Hnew.
  destruct (created_fresh k Hwf) as [Hft Hfr].
  constructor; cbn; rewrite ?Hnew.
  - rewrite size_union by set_solver. rewrite size_singleton. lia.
  - intros h. rewrite elem_of_union, elem_of_singleton. split.
    + intros [->|Hh].
      * exists idx, new. rewrite lookup_insert_eq. auto.
      * apply (wf_live k Hwf) in Hh as (i & b & Hi & Hb).
        exists i, b. split; [|exact Hb].
        rewrite lookup_insert_ne; [exact Hi|]. congruence.
    + intros (i & b & Hi & Hb). destruct (decide (idx = i)) as [->|Hne].
      * rewrite lookup_insert_eq in Hi. injection Hi as <-. left. congruence.
      * rewrite lookup_insert_ne in Hi by exact Hne. right.
        apply (wf_live k Hwf). eauto.
  - intros i j bi bj Hi Hj Heq.
    destruct (decide (idx = i)) as [Ei|Hi'], (decide (idx = j)) as [Ej|Hj'];
      [congruence|subst i|subst j|].
    + rewrite lookup_insert_eq in Hi. rewrite lookup_insert_ne in Hj by exact Hj'.
      injection Hi as <-. exfalso. apply Hft. apply (wf_live k Hwf).
      exists j, bj. split; [exact Hj|]. congruence.
    + rewrite lookup_insert_eq in Hj. rewrite lookup_insert_ne in Hi by exact Hi'.
      injection Hj as <-. exfalso. apply Hft. apply (wf_live k Hwf).
      exists i, bi. split; [exact Hi|]. congruence.
    + rewrite lookup_insert_ne in Hi by exact Hi'.
      rewrite lookup_insert_ne in Hj by exact Hj'.
      exact (wf_one_index k Hwf i j bi bj Hi Hj Heq).
  - intros h. rewrite elem_of_union, elem_of_singleton.
    pose proof (wf_created k Hwf h) as Hc. split.
    + intros Hlt. destruct (decide (h = created k)); [tauto|].
      assert (h < created k)%nat by lia. tauto.
    + intros [[->|Hh]|Hh]; [lia| |].
      * assert (h < created k)%nat by tauto. lia.
      * assert (h < created k)%nat by tauto. lia.
  - intros h. rewrite elem_of_union, elem_of_singleton.
    intros [->|Hh]; [exact Hfr|]. exact (wf_alive_not_released k Hwf h Hh).
  - exact (wf_released_once k Hwf).
Qed.

(** Binding at an index that has an image: the prior object leaves the
    table and joins the released ones. *)
Lemma bind_again_wf k idx prior new :
  wf k ->
  argument_images k !! idx = Some prior ->
  image new = created k ->
  wf (mk_Kernel (argument_count k)
        ({[image new]} ∪ (image_table k ∖ {[image prior]}))
        (<[idx := new]> (argument_images k)) (S (created k))
        (released k ++ [image prior])).
Proof.
  intros Hwf Hprior Hnew.
  destruct (created_fresh k Hwf) as [Hft Hfr].
  assert (Hp : image prior ∈ image_table k)
    by (apply (wf_live k Hwf); eauto).
  assert (Hpr : image prior ∉ released k)
    by (apply (wf_alive_not_released k Hwf), Hp).
  assert (Hcp : created k <> image prior) by (intros E; rewrite E in Hft; tauto).
  constructor; cbn; rewrite ?Hnew.
  - rewrite size_union
      by (apply disjoint_singleton_l; rewrite elem_of_difference; tauto).
    rewrite size_difference by (apply singleton_subseteq_l, Hp).
    rewrite !size_singleton.
    assert (size (image_table k) <> 0)%nat.
    { intros E. apply size_empty_inv in E. set_solver. }
    pose proof (wf_capacity k Hwf). lia.
  - intros h. rewrite elem_of_union, elem_of_singleton, elem_of_difference,
      elem_of_singleton. split.
    + intros [->|[Hh Hne]].
      * exists idx, new. rewrite lookup_insert_eq. auto.
      * apply (wf_live k Hwf) in Hh as (i & b & Hi & Hb).
        exists i, b. split; [|exact Hb].
        rewrite lookup_insert_ne; [exact Hi|]. intros <-. congruence.
    + intros (i & b & Hi & Hb). destruct (decide (idx = i)) as [E|Hne].
      * subst i. rewrite lookup_insert_eq in Hi. injection Hi as <-.
        left. congruence.
      * rewrite lookup_insert_ne in Hi by exact Hne. right. split.
        -- apply (wf_live k Hwf). eauto.
        -- intros E. apply Hne. symmetry.
           apply (wf_one_index k Hwf i idx b prior Hi Hprior). congruence.
  - intros i j bi bj Hi Hj Heq.
    destruct (decide (idx = i)) as [Ei|Hi'], (decide (idx = j)) as [Ej|Hj'];
      [congruence|subst i|subst j|].
    + rewrite lookup_insert_eq in Hi. rewrite lookup_insert_ne in Hj by exact Hj'.
      injection Hi as <-. exfalso. apply Hft. apply (wf_live k Hwf).
      exists j, bj. split; [exact Hj|]. congruence.
    + rewrite lookup_insert_eq in Hj. rewrite lookup_insert_ne in Hi by exact Hi'.
      injection Hj as <-. exfalso. apply Hft. apply (wf_live k Hwf).
      exists i, bi. split; [exact Hi|]. congruence.
    + rewrite lookup_insert_ne in Hi by exact Hi'.
      rewrite lookup_insert_ne in Hj by exact Hj'.
      exact (wf_one_index k Hwf i j bi bj Hi Hj Heq).
  - intros h. rewrite elem_of_union, elem_of_singleton, elem_of_difference,
      elem_of_singleton, elem_of_app, list_elem_of_singleton.
    pose proof (wf_created k Hwf h) as Hc. split.
    + intros Hlt. destruct (decide (h = created k)); [tauto|].
      assert (h < created k)%nat by lia.
      destruct (decide (h = image prior)); tauto.
    + intros [[->|[Hh _]]|[Hh| ->]]; [lia| | |].
      * assert (h < created k)%nat by tauto. lia.
      * assert (h < created k)%nat by tauto. lia.
      * assert (image prior < created k)%nat by (apply (wf_created k Hwf); tauto).
        lia.
  - intros h. rewrite elem_of_union, elem_of_singleton, elem_of_difference,
      elem_of_singleton, elem_of_app, list_elem_of_singleton.
    intros [->|[Hh Hne]] [Hr|E]; try tauto.
    exact (wf_alive_not_released k Hwf h Hh Hr).
  - apply NoDup_app. split; [exact (wf_released_once k Hwf)|]. split.
    + intros h Hh. rewrite list_elem_of_singleton. intros ->. tauto.
    + apply NoDup_singleton.
Qed.

Lemma bindImage_wf mode idx tex d k slot k' :
  wf k ->
  bindImage wrappable mode idx tex d k = inr (slot, k') ->
  wf k'.
Proof.
  intros Hwf H.
  pose proof (bindImage_success_admissible _ _ _ _ _ _ _ H) as Ha.
  rewrite (bindImage_admissible _ _ _ _ _ Ha) in H. cbv zeta in H.
  destruct (argument_images k !! idx) as [prior|] eqn:Hidx.
  - injection H as <- <-.
    apply (bind_again_wf k idx prior (mk_ImageBinding (created k) tex mode d)); auto.
  - case_bool_decide as Hfull; [discriminate|]. injection H as <- <-.
    apply (bind_fresh_wf k idx (mk_ImageBinding (created k) tex mode d)); auto. lia.
Qed.

Lemma reachable_wf n k : reachable wrappable n k -> wf k.
Proof.
  induction 1 as [|k mode idx tex d slot k' _ IH Hbind].
  - apply new_kernel_wf.
  - exact (bindImage_wf _ _ _ _ _ _ _ IH Hbind).
Qed.

(** A run of binds at distinct indices that hold no image yet: each one
    succeeds while the table has room and fails with ImageTableFull, the
    state untouched, once it has not. *)
Lemma bind_all_fresh rs : forall k,
  wf k ->
  NoDup (map req_index rs) ->
  Forall (fresh_request wrappable k) rs ->
  fst (bind_all wrappable rs k) =
    imap (fun i r =>
            if bool_decide (size (image_table k) + i < capacity)%nat
            then inr (req_index r) else inl ImageTableFull) rs /\
  snd (bind_all wrappable rs k) =
    snd (bind_all wrappable (take (capacity - size (image_table k)) rs) k) /\
  size (image_table (snd (bind_all wrappable rs k))) =
    Nat.max (size (image_table k))
            (Nat.min (size (image_table k) + length rs) capacity).
Proof.
  induction rs as [|r rest IH]; intros k Hwf Hnd Hfresh.
  - cbn. rewrite take_nil. cbn. split; [reflexivity|]. split; [reflexivity|].
    pose proof (wf_capacity k Hwf). lia.
  - apply Forall_cons in Hfresh as [[Hnone Hadm] Hrest].
    cbn [map] in Hnd. apply NoDup_cons in Hnd as [Hnotin Hnd].
    cbn [bind_all]. rewrite (bindImage_admissible _ _ _ _ _ Hadm). cbv zeta.
    rewrite Hnone. rewrite imap_cons. cbn [length].
    case_bool_decide as Hfull.
    + (* the table is full: nothing changes *)
      destruct (IH k Hwf Hnd Hrest) as (Hout & Hst & Hsz).
      replace (capacity - size (image_table k))%nat with 0%nat in * by lia.
      rewrite take_0 in *. cbn [bind_all snd] in *.
      destruct (bind_all wrappable rest k) as [out k'] eqn:Hrun.
      cbn [fst snd] in *. subst k'.
      split; [|split; [reflexivity|lia]].
      rewrite Hout. rewrite bool_decide_eq_false_2 by lia. f_equal.
      apply imap_ext. intros i x _. cbv [compose].
      rewrite !bool_decide_eq_false_2 by lia. reflexivity.
    + set (new := mk_ImageBinding (created k) (req_texture r) (req_mode r) (req_dims r)).
      set (k1 := mk_Kernel _ _ _ _ _).
      assert (Hroom : (size (image_table k) < capacity)%nat) by lia.
      assert (Hwf1 : wf k1)
        by (apply (bind_fresh_wf k (req_index r) new); auto).
      assert (Hsz1 : size (image_table k1) = S (size (image_table k))).
      { subst k1. cbn. destruct (created_fresh k Hwf) as [Hft _].
        rewrite size_union by (apply disjoint_singleton_l, Hft).
        rewrite size_singleton. reflexivity. }
      assert (Hrest1 : Forall (fresh_request wrappable k1) rest).
      { apply Forall_forall. intros x Hx.
        rewrite Forall_forall in Hrest. destruct (Hrest x Hx) as [Hn Ha].
        split; [|exact Ha]. subst k1. cbn.
        rewrite lookup_insert_ne; [exact Hn|].
        intros E. apply Hnotin. rewrite E.
        apply list_elem_of_In, in_map, list_elem_of_In, Hx. }
      destruct (IH k1 Hwf1 Hnd Hrest1) as (Hout & Hst & Hsz).
      replace (capacity - size (image_table k))%nat
        with (S (capacity - size (image_table k1)))%nat by lia.
      cbn [take bind_all]. rewrite (bindImage_admissible _ _ _ _ _ Hadm).
      cbv zeta. rewrite Hnone. rewrite (bool_decide_eq_false_2 _ Hfull).
      fold new. fold k1.
      destruct (bind_all wrappable rest k1) as [out k'] eqn:Hrun.
      destruct (bind_all wrappable (take _ rest) k1) as [out2 k2] eqn:Hrun2.
      cbn [fst snd] in *. subst k2.
      split; [|split; [reflexivity|lia]].
      rewrite Hout. rewrite bool_decide_eq_true_2 by lia. f_equal.
      apply imap_ext. intros i x _. cbv [compose]. rewrite Hsz1.
      replace (S (size (image_table k)) + i)%nat
        with (size (image_table k) + S i)%nat by lia.
      reflexivity.
Qed.

(** C5. The image table never holds more than 9 images. Binding images
    at distinct indices of a new kernel (valid indices, textures the
    backend can wrap; every bind creates an image object of its own)
    succeeds for the first 9 and fails with ImageTableFull from the 10th
    on; the failure is returned to the caller and leaves the state as the
    ninth bind left it. *)
Theorem image_table_full_on_tenth n rs :
  NoDup (map req_index rs) ->
  Forall (fun r => 0 <= req_index r < n /\
                   wrappable (req_texture r) (req_mode r) (req_dims r) = true) rs ->
  fst (bind_all wrappable rs (new_kernel n)) =
    imap (fun i r => if bool_decide (i < 9)%nat
                     then inr (req_index r) else inl ImageTableFull) rs /\
  snd (bind_all wrappable rs (new_kernel n)) =
    snd (bind_all wrappable (take 9 rs) (new_kernel n)) /\
  size (image_table (snd (bind_all wrappable rs (new_kernel n)))) =
    Nat.min (length rs) 9 /\
  (forall k, reachable wrappable n k -> (size (image_table k) <= 9)%nat).
Proof.
  intros Hnd Hvalid.
  assert (Hfresh : Forall (fresh_request wrappable (new_kernel n)) rs).
  { eapply Forall_impl; [exact Hvalid|]. intros r [Hi Hw].
    split; [apply lookup_empty|]. split; assumption. }
  destruct (bind_all_fresh rs (new_kernel n) (new_kernel_wf n) Hnd Hfresh)
    as (Hout & Hst & Hsz).
  cbn [image_table new_kernel] in Hout, Hst, Hsz.
  rewrite size_empty in Hout, Hst, Hsz.
  change capacity with 9%nat in Hout, Hst, Hsz.
  split; [exact Hout|]. split; [exact Hst|]. split; [rewrite Hsz; lia|].
  intros k Hk. exact (wf_capacity k (reachable_wf n k Hk)).
Qed.

(** C6. In a state the binder can reach, a bind at an index that already
    holds an image (a valid triple) succeeds and releases exactly the
    image object bound there, which was alive and had not been released
    before; the new object takes its place at that index, the other
    indices keep their images and the table does not grow. In every
    reachable state an index holds at most one image, every object created
    is either alive in the table or released, and none is released
    twice. *)
Theorem rebind_releases_prior n k mode idx tex d prior :
  reachable wrappable n k ->
  argument_images k !! idx = Some prior ->
  admissible wrappable mode idx tex d k ->
  exists k',
    bindImage wrappable mode idx tex d k = inr (idx, k') /\
    released k' = released k ++ [image prior] /\
    (image prior ∈ image_table k) /\
    (image prior ∉ released k) /\
    (image prior ∉ image_table k') /\
    argument_images k' !! idx = Some (mk_ImageBinding (created k) tex mode d) /\
    (created k ∈ image_table k') /\
    (forall j, j <> idx -> argument_images k' !! j = argument_images k !! j) /\
    size (image_table k') = size (image_table k) /\
    reachable wrappable n k' /\
    wf k'.
Proof.
  intros Hreach Hprior Hadm.
  pose proof (reachable_wf n k Hreach) as Hwf.
  pose proof (bindImage_admissible _ _ _ _ _ Hadm) as Hbind.
  cbv zeta in Hbind. rewrite Hprior in Hbind.
  destruct (created_fresh k Hwf) as [Hft Hfr].
  assert (Hp : image prior ∈ image_table k)
    by (apply (wf_live k Hwf); eauto).
  assert (Hcp : created k <> image prior) by (intros E; rewrite E in Hft; tauto).
  eexists. split; [exact Hbind|]. cbn.
  split; [reflexivity|]. split; [exact Hp|].
  split; [exact (wf_alive_not_released k Hwf _ Hp)|].
  split; [rewrite elem_of_union, elem_of_singleton, elem_of_difference,
            elem_of_singleton; intros [E|[_ E]]; congruence|].
  split; [apply lookup_insert_eq|].
  split; [apply elem_of_union_l, elem_of_singleton; reflexivity|].
  split; [intros j Hj; apply lookup_insert_ne; congruence|].
  split.
  - rewrite size_union
      by (apply disjoint_singleton_l; rewrite elem_of_difference; tauto).
    rewrite size_difference by (apply singleton_subseteq_l, Hp).
    rewrite !size_singleton.
    assert (size (image_table k) <> 0)%nat.
    { intros E. apply size_empty_inv in E.
      apply (proj1 (elem_of_equiv_empty _) E (image prior) Hp). }
    lia.
  - split.
    + exact (reachable_bind wrappable n k mode idx tex d idx _ Hreach Hbind).
    + exact (bindImage_wf _ _ _ _ _ _ _ Hwf Hbind).
Qed.
End WithBackend.

Import Samples.

Lemma ten_requests_distinct : NoDup (map req_index ten_requests).
Proof. apply (bool_decide_unpack _). vm_compute. reflexivity. Defined.

Lemma image_table_full_on_tenth_witness :
  NoDup (map req_index ten_requests) /\
  Forall (fun r => 0 <= req_index r < 16 /\
                   any_texture (req_texture r) (req_mode r) (req_dims r) = true)
         ten_requests /\
  fst (bind_all any_texture ten_requests (new_kernel 16)) =
    [inr 0; inr 1; inr 2; inr 3; inr 4; inr 5; inr 6; inr 7; inr 8;
     inl ImageTableFull].
Proof.
  assert (Hv : Forall (fun r => 0 <= req_index r < 16 /\
                   any_texture (req_texture r) (req_mode r) (req_dims r) = true)
                 ten_requests).
  { unfold ten_requests. cbn [map]. repeat constructor; cbn; lia. }
  split; [exact ten_requests_distinct|]. split; [exact Hv|].
  destruct (image_table_full_on_tenth any_texture 16 ten_requests
              ten_requests_distinct Hv) as [Hout _].
  rewrite Hout. reflexivity.
Defined.

Lemma bound_once_reachable : reachable any_texture 4 bound_once.
Proof.
  apply (reachable_bind any_texture 4 (new_kernel 4) ReadOnly 0 100 Image3D 0).
  - apply reachable_new.
  - reflexivity.
Defined.

Lemma rebind_releases_prior_witness :
  reachable any_texture 4 bound_once /\
  argument_images bound_once !! 0 = Some (mk_ImageBinding 0%nat 100 ReadOnly Image3D) /\
  admissible any_texture ReadWrite 0 101 Image3D bound_once /\
  exists k',
    bindReadWriteImage any_texture 0 101 Image3D bound_once = inr (0, k') /\
    released k' = [0%nat].
Proof.
  assert (Hb : argument_images bound_once !! 0 =
               Some (mk_ImageBinding 0%nat 100 ReadOnly Image3D)) by reflexivity.
  assert (Ha : admissible any_texture ReadWrite 0 101 Image3D bound_once)
    by (split; [change (argument_count bound_once) with 4; lia|reflexivity]).
  split; [exact bound_once_reachable|]. split; [exact Hb|]. split; [exact Ha|].
  destruct (rebind_releases_prior any_texture 4 bound_once ReadWrite 0 101 Image3D
              _ bound_once_reachable Hb Ha) as (k' & H1 & H2 & _).
  exists k'. split; [exact H1|exact H2].
Defined.
End ImageBinderFacts.

Module DeviceManagerFacts.
Import DeviceManager Samples.

(** The cases a platform can be in. *)
Ltac platform_cases p :=
  unfold init, initialize, obtainDevice;
  destruct (gpu_device p) as [g|] eqn:Hgpu;
  destruct (cpu_device p) as [c|] eqn:Hcpu;
  repeat match goal with
         | |- context [interop_extension p ?d] =>
             destruct (interop_extension p d) eqn:?
         | |- context [context_creation p ?d] =>
             destruct (context_creation p d) eqn:?
         end;
  cbn [negb fst snd app].

Lemma initialize_starts_with_GPU p :
  exists rest, fst (initialize p) = attempt_GPU :: rest.
Proof. platform_cases p; eexists; reflexivity. Qed.

Lemma attempt_CPU_iff p :
  In attempt_CPU (fst (initialize p)) <-> gpu_device p = None.
Proof.
  platform_cases p; cbn [In]; split; intros H; try discriminate; auto;
    repeat (destruct H as [H|H]; try discriminate); contradiction.
Qed.

Lemma DeviceNotFound_iff p :
  snd (initialize p) = failure DeviceNotFound <->
  gpu_device p = None /\ cpu_device p = None.
Proof.
  platform_cases p; split; try (intros [H1 H2]); try intros H;
    try discriminate; auto.
Qed.

Lemma init_true_device p :
  init p = true -> gpu_device p <> None \/ cpu_device p <> None.
Proof.
  platform_cases p; intros H; try discriminate;
    try (left; discriminate); right; discriminate.
Qed.

(** C8, as amended. Initialization attempts the GPU first and attempts the
    CPU exactly when the GPU could not be acquired; it reports that no device
    was found exactly when neither could be acquired, and it succeeds only
    with a device acquired. (With a device acquired it can still fail, for a
    missing interop extension or a context that cannot be created.) *)
Theorem initialize_gpu_then_cpu p :
  (exists rest, fst (initialize p) = attempt_GPU :: rest) /\
  (In attempt_CPU (fst (initialize p)) <-> gpu_device p = None) /\
  (snd (initialize p) = failure DeviceNotFound <->
   gpu_device p = None /\ cpu_device p = None) /\
  (gpu_device p = None /\ cpu_device p = None -> init p = false) /\
  (init p = true -> gpu_device p <> None \/ cpu_device p <> None).
Proof.
  split; [apply initialize_starts_with_GPU|].
  split; [apply attempt_CPU_iff|].
  split; [apply DeviceNotFound_iff|].
  split; [|apply init_true_device].
  intros H. apply DeviceNotFound_iff in H. unfold init. rewrite H. reflexivity.
Qed.

(** C8, as stated, fails: a GPU is acquired, yet initialization reports
    failure because the interop extension is missing. *)
Lemma init_fails_with_device_acquired :
  ~ (init gpu_without_interop = false ->
     gpu_device gpu_without_interop = None /\
     cpu_device gpu_without_interop = None).
Proof. intros H. destruct (H eq_refl) as [Hg _]. discriminate Hg. Qed.

Lemma initialize_gpu_then_cpu_witness :
  fst (initialize cpu_only) = [attempt_GPU; attempt_CPU; log_device_info 2;
                               create_context 2] /\
  init cpu_only = true /\
  (In attempt_CPU (fst (initialize cpu_only)) <-> gpu_device cpu_only = None).
Proof.
  split; [reflexivity|]. split; [reflexivity|].
  exact (proj1 (proj2 (initialize_gpu_then_cpu cpu_only))).
Defined.
End DeviceManagerFacts.

(** ** Further properties of Material.cpp *)

Module MaterialExtras.
Import Material ShaderParameter UniformLayer PassStatements GLFacts MaterialFacts.

Section WithDriver.
Context (gl : GLdriver).

Lemma setValue_keeps_object setting name c a c' :
  outcome (setValue gl setting name c) = Returned a c' -> c' = c.
Proof.
  destruct setting; run; branches; intros H; try discriminate;
    injection H as _ <-; reflexivity.
Qed.

Lemma setValue_events setting name c :
  Forall (pass_event (program (material c))) (trace (setValue gl setting name c)).
Proof.
  destruct setting; run; branches; repeat constructor.
Qed.

Lemma uploadParameters_for_material group : forall c t c',
  uploadParameters_for gl group c = (t, Returned tt c') ->
  material c' = material c.
Proof.
  induction group as [|[name setting] rest IH]; intros c t c' H.
  - injection H as _ <-. reflexivity.
  - destruct (outcome (setValue gl setting name c)) as [a c1|why] eqn:Hout.
    + pose proof (setValue_keeps_object _ _ _ _ _ Hout) as ->. destruct a.
      rewrite (uploadParameters_for_cons gl _ _ _ _ Hout) in H. cbv zeta in H.
      destruct (uploadParameters_for gl rest _) as [t' o'] eqn:Hrest.
      cbn [trace outcome fst snd] in H. injection H as _ ->.
      apply IH in Hrest. exact Hrest.
    + rewrite (uploadParameters_for_cons_aborted gl _ _ _ _ _ Hout) in H.
      discriminate.
Qed.

Lemma uploadParameters_for_events group : forall c,
  Forall (pass_event (program (material c))) (trace (uploadParameters_for gl group c)).
Proof.
  induction group as [|[name setting] rest IH]; intros c.
  - constructor.
  - destruct (outcome (setValue gl setting name c)) as [a c1|why] eqn:Hout.
    + pose proof (setValue_keeps_object _ _ _ _ _ Hout) as ->. destruct a.
      rewrite (uploadParameters_for_cons gl _ _ _ _ Hout). cbv zeta.
      cbn [trace fst]. constructor; [exact I|].
      apply Forall_app. split; [apply setValue_events|].
      constructor; [exact I|]. apply (IH (at_unit c _)).
    + rewrite (uploadParameters_for_cons_aborted gl _ _ _ _ _ Hout).
      cbn [trace fst]. constructor; [exact I|]. apply setValue_events.
Qed.

(** X2. Whatever the group, and whether the pass returns or an assertion
    stops it, a pass issues only error checks, uniform uploads, texture
    activations and bindings, the warning, and uniform lookups, and every
    lookup is made in the program of the material of the [Commands] object:
    it never creates, links, selects or deletes a program and never looks a
    uniform up elsewhere. *)
Theorem uploadParameters_events group c :
  Forall (pass_event (program (material c))) (trace (uploadParameters gl group c)).
Proof.
  unfold uploadParameters.
  cbv [mbind M_bind bind set_textureUnits get put].
  pose proof (uploadParameters_for_events group (at_unit c 0)) as H.
  unfold at_unit in H. cbn [material] in H.
  destruct (uploadParameters_for gl group _) as [t [[] c1|why]];
    cbn [trace fst app] in *; [rewrite app_nil_r|]; exact H.
Qed.

Lemma uploadParameters_returned group c t c' :
  uploadParameters gl group c = (t, Returned tt c') -> c' = at_unit c 0.
Proof.
  unfold uploadParameters.
  cbv [mbind M_bind bind set_textureUnits get put].
  destruct (uploadParameters_for gl group _) as [t1 [[] c1|why]] eqn:Hfor;
    [|discriminate].
  intros H. injection H as _ <-.
  apply uploadParameters_for_material in Hfor. cbn [material] in Hfor.
  unfold at_unit. rewrite Hfor. reflexivity.
Qed.

(** X1. [setValue] never changes the [Commands] object: whatever the entry,
    when it returns, the material and the texture-unit counter are as they
    were before the call. *)
Theorem setValue_frame setting name c a c' :
  outcome (setValue gl setting name c) = Returned a c' ->
  material c' = material c /\ textureUnits c' = textureUnits c.
Proof.
  intros H. apply setValue_keeps_object in H. subst c'. split; reflexivity.
Qed.

(** X3. A pass that returns leaves the [Commands] object with the same
    material and the counter back at zero, and the next pass, over any group,
    behaves as it would have on the object before the first: texture units do
    not accumulate from one pass to the next. *)
Theorem uploadParameters_passes_independent group1 group2 c t c' :
  uploadParameters gl group1 c = (t, Returned tt c') ->
  material c' = material c /\ textureUnits c' = 0 /\
  uploadParameters gl group2 c' = uploadParameters gl group2 c.
Proof.
  intros H. apply uploadParameters_returned in H. subst c'.
  split; [reflexivity|]. split; reflexivity.
Qed.

Lemma uploadParameters_for_app pre : forall rest c t c',
  uploadParameters_for gl pre c = (t, Returned tt c') ->
  uploadParameters_for gl (pre ++ rest) c =
  (t ++ trace (uploadParameters_for gl rest c'),
   outcome (uploadParameters_for gl rest c')).
Proof.
  induction pre as [|[name setting] pre IH]; intros rest c t c' H.
  - injection H as <- <-. cbn [app]. destruct (uploadParameters_for gl rest c).
    reflexivity.
  - cbn [app].
    destruct (outcome (setValue gl setting name c)) as [a c1|why] eqn:Hout.
    + pose proof (setValue_keeps_object _ _ _ _ _ Hout) as ->. destruct a.
      rewrite (uploadParameters_for_cons gl _ _ _ _ Hout) in H.
      rewrite (uploadParameters_for_cons gl _ _ _ _ Hout).
      cbv zeta in H |- *.
      destruct (uploadParameters_for gl pre _) as [t1 o1] eqn:Hpre.
      cbn [trace outcome fst snd] in H. injection H as <- ->.
      rewrite (IH rest _ _ _ Hpre). cbn [trace outcome fst snd].
      f_equal. cbn [app]. f_equal. rewrite <- !app_assoc. reflexivity.
    + rewrite (uploadParameters_for_cons_aborted gl _ _ _ _ _ Hout) in H.
      discriminate.
Qed.

(** X4. An entry of type NONE stops the pass at the assertion of
    [setValue]: the entries before it have been uploaded, the entry itself
    and every entry after it are never processed, and the counter is not
    reset. The entries before it are ones on which no assertion fails. *)
Theorem uploadParameters_stops_at_NONE pre name post c :
  asserts_hold pre ->
  uploadParameters gl (pre ++ (name, none) :: post) c =
  (trace (uploadParameters gl pre c) ++ [glError],
   Aborted assert_setting_not_NONE).
Proof.
  intros Hok. rewrite (uploadParameters_run gl pre c Hok). cbn [trace fst].
  destruct Hok as [Hty Hmax].
  pose proof (uploadParameters_for_run gl pre c 0 ltac:(lia) Hty ltac:(lia)) as Hpre.
  unfold uploadParameters.
  cbv [mbind M_bind bind set_textureUnits get put].
  change (mk_Commands (material c) 0) with (at_unit c 0).
  rewrite (uploadParameters_for_app pre _ _ _ _ Hpre).
  rewrite (uploadParameters_for_cons_aborted gl name none post _
             assert_setting_not_NONE) by reflexivity.
  cbn [trace outcome fst snd app]. reflexivity.
Qed.

(** X5. A pass returns exactly when no entry of the group is of type NONE
    and the group has at most 0x8B4D (35661) sampler entries, the value of the
    token the texture-unit assertion compares the counter with; on any other
    group an assertion stops it. *)
Theorem uploadParameters_returns_exactly group c :
  (exists t c', uploadParameters gl group c = (t, Returned tt c')) <->
  (Forall (fun e => getType (snd e) <> NONE) group /\
   count_samplers group <= 35661).
Proof.
  rewrite uploadParameters_returns_iff. unfold asserts_hold. split.
  - intros [Hty Hmax]. split; [|exact Hmax].
    eapply Forall_impl; [exact Hty|]. intros e He. apply enumerated_not_NONE, He.
  - intros [Hty Hmax]. split; [|exact Hmax].
    eapply Forall_impl; [exact Hty|]. intros e He. apply enumerated_not_NONE, He.
Qed.

Lemma uploadParameters_trace group c :
  trace (uploadParameters gl group c) =
  trace (uploadParameters_for gl group (at_unit c 0)).
Proof.
  unfold uploadParameters.
  cbv [mbind M_bind bind set_textureUnits get put].
  change (mk_Commands (material c) 0) with (at_unit c 0).
  destruct (uploadParameters_for gl group _) as [t [[] c1|why]];
    cbn [trace fst app]; [apply app_nil_r|reflexivity].
Qed.

Lemma active_textures_app t1 t2 :
  active_textures (t1 ++ t2) = active_textures t1 ++ active_textures t2.
Proof. apply omap_app. Qed.

Lemma active_textures_glError t :
  active_textures (glError :: t) = active_textures t.
Proof. reflexivity. Qed.

Lemma active_textures_setValue setting name c u :
  enumerated (getType setting) ->
  0 <= u ->
  (is_sampler (getType setting) = true ->
   u < GL_MAX_COMBINED_TEXTURE_IMAGE_UNITS) ->
  active_textures (trace (setValue gl setting name (at_unit c u))) =
  if is_sampler (getType setting) then [GL_TEXTURE0 + u] else [].
Proof.
  intros Hty Hu0 Hu. apply enumerated_not_NONE in Hty.
  destruct setting; try (exfalso; apply Hty; reflexivity);
    try (specialize (Hu eq_refl);
         assert (Henum : to_GLenum (GL_TEXTURE0 + u) = GL_TEXTURE0 + u)
           by (apply to_GLuint_id; unfold in_GLuint, GL_TEXTURE0;
               unfold GL_MAX_COMBINED_TEXTURE_IMAGE_UNITS in Hu; lia);
         apply Z.ltb_lt in Hu);
    run; cbn [material textureUnits at_unit]; rewrite ?Hu;
    cbn [material textureUnits at_unit]; rewrite ?Henum; branches; reflexivity.
Qed.

Lemma active_textures_for group : forall c u,
  0 <= u ->
  Forall (fun e => enumerated (getType (snd e))) group ->
  u + count_samplers group <= GL_MAX_COMBINED_TEXTURE_IMAGE_UNITS ->
  active_textures (trace (uploadParameters_for gl group (at_unit c u))) =
  map (fun k => GL_TEXTURE0 + (u + Z.of_nat k))
      (seq 0 (Z.to_nat (count_samplers group))).
Proof.
  induction group as [|[name setting] rest IH]; intros c u Hu Hty Hmax.
  - reflexivity.
  - apply Forall_cons in Hty as [Hty Hrest]. cbn [snd] in Hty.
    rewrite count_samplers_cons in Hmax |- *. cbn [snd] in Hmax |- *.
    pose proof (count_samplers_nonneg rest) as Hnn.
    assert (Hbound : is_sampler (getType setting) = true ->
                     u < GL_MAX_COMBINED_TEXTURE_IMAGE_UNITS)
      by (intros Hs; rewrite Hs in Hmax; lia).
    rewrite uploadParameters_for_cons by (apply setValue_returns; assumption).
    cbv zeta. cbn [trace fst].
    rewrite active_textures_glError, active_textures_app, active_textures_glError.
    rewrite (active_textures_setValue setting name c u Hty Hu Hbound).
    cbn [textureUnits at_unit material].
    destruct (is_sampler (getType setting)) eqn:Hs.
    + rewrite to_GLint_id
        by (unfold in_GLint; unfold GL_MAX_COMBINED_TEXTURE_IMAGE_UNITS in Hmax; lia).
      specialize (IH c (u + 1) ltac:(lia) Hrest ltac:(lia)).
      change (at_unit (at_unit c u) (u + 1)) with (at_unit c (u + 1)).
      rewrite IH.
      replace (Z.to_nat (1 + count_samplers rest))
        with (S (Z.to_nat (count_samplers rest))) by lia.
      cbn [seq map app]. rewrite Z.add_0_r. f_equal.
      rewrite <- seq_shift, map_map. apply map_ext. intros k. f_equal. lia.
    + rewrite Z.add_0_r.
      rewrite to_GLint_id
        by (unfold in_GLint; unfold GL_MAX_COMBINED_TEXTURE_IMAGE_UNITS in Hmax; lia).
      specialize (IH c u Hu Hrest ltac:(lia)).
      change (at_unit (at_unit c u) u) with (at_unit c u).
      rewrite IH. rewrite Z.add_0_l. reflexivity.
Qed.

(** X6. In a pass on which no assertion fails, the texture units activated
    are, in the order of the calls, GL_TEXTURE0, GL_TEXTURE0 + 1, ... , one for
    each sampler entry of the group: no unit is skipped and no two samplers of
    a pass share a unit. *)
Theorem uploadParameters_active_textures group c :
  asserts_hold group ->
  active_textures (trace (uploadParameters gl group c)) =
    map (fun k => GL_TEXTURE0 + Z.of_nat k)
        (seq 0 (Z.to_nat (count_samplers group))) /\
  NoDup (active_textures (trace (uploadParameters gl group c))).
Proof.
  intros [Hty Hmax].
  assert (Heq : active_textures (trace (uploadParameters gl group c)) =
                map (fun k => GL_TEXTURE0 + Z.of_nat k)
                    (seq 0 (Z.to_nat (count_samplers group)))).
  { rewrite uploadParameters_trace.
    rewrite (active_textures_for group c 0 ltac:(lia) Hty ltac:(lia)).
    apply map_ext. intros k. f_equal. }
  split; [exact Heq|]. rewrite Heq.
  apply NoDup_fmap_2; [|apply NoDup_ListNoDup, seq_NoDup].
  intros a b Hab. lia.
Qed.

(** X7. [SetParameterui] keeps the location it looked up although it holds
    it in an unsigned local: the upload goes to the location
    [glGetUniformLocation] returned and that location is the result, so an
    unresolved name still yields -1. *)
Theorem SetParameterui_keeps_location parameterName value c :
  SetParameterui gl parameterName value c =
  ([glGetUniformLocation (program (material c)) parameterName;
    glUniform1ui (location_of gl (material c) parameterName) value],
   Returned (location_of gl (material c) parameterName) c).
Proof.
  unfold location_of. run. rewrite to_GLint_to_GLuint, to_GLint_idem.
  reflexivity.
Qed.

(** X8. For an entry of one of the ten value and sampler types, [setValue]
    prints the warning exactly when the entry's name is unresolved in the
    program, and prints nothing else. The counter is below the asserted bound
    when the entry is a sampler. *)
Theorem setValue_warns_exactly_when_unresolved setting name c :
  enumerated (getType setting) ->
  getType setting <> POINT_LIGHT ->
  (is_sampler (getType setting) = true ->
   textureUnits c < GL_MAX_COMBINED_TEXTURE_IMAGE_UNITS) ->
  printed (trace (setValue gl setting name c)) =
  if location_of gl (material c) name =? -1
  then [warning name (Material.name (material c))] else [].
Proof.
  intros Hty Hnl Hu. apply enumerated_not_NONE in Hty. unfold location_of.
  destruct setting; try (exfalso; apply Hty; reflexivity);
    try (exfalso; apply Hnl; reflexivity);
    try (specialize (Hu eq_refl); apply Z.ltb_lt in Hu);
    run; rewrite ?Hu, ?to_GLint_to_GLuint, ?to_GLint_idem; branches; reflexivity.
Qed.

End WithDriver.

Lemma length_append (a b : string) :
  String.length (String.append a b) = (String.length a + String.length b)%nat.
Proof.
  induction a as [|ch a IH]; [reflexivity|].
  change (String.append (String ch a) b) with (String ch (String.append a b)).
  cbn [String.length]. rewrite IH. reflexivity.
Qed.

Lemma append_inj_l (a a' b : string) :
  String.append a b = String.append a' b -> a = a'.
Proof.
  revert a'. induction a as [|ch a IH]; intros [|ch' a'] H.
  - reflexivity.
  - apply (f_equal String.length) in H. rewrite !length_append in H.
    cbn [String.length] in H. lia.
  - apply (f_equal String.length) in H. rewrite !length_append in H.
    cbn [String.length] in H. lia.
  - change (String ch (String.append a b) = String ch' (String.append a' b)) in H.
    injection H as -> H. f_equal. apply IH, H.
Qed.

Lemma to_string_inj n n' : to_string n = to_string n' -> n = n'.
Proof.
  unfold to_string. intros H.
  assert (Hnn : forall m, Z.to_int m <> Decimal.Pos Decimal.Nil /\
                          Z.to_int m <> Decimal.Neg Decimal.Nil).
  { intros [|q|q]; cbn; split; try discriminate; intros E; injection E as E;
      exact (DecimalPos.Unsigned.to_uint_nonnil q E). }
  apply DecimalZ.to_int_inj.
  destruct (Hnn n) as [H1 H2], (Hnn n') as [H1' H2'].
  pose proof (NilZero.isi _ H1 H2) as E. pose proof (NilZero.isi _ H1' H2') as E'.
  rewrite H in E. rewrite E in E'. injection E' as E'. exact E'.
Qed.

(** X9. The uniform names of point lights are told apart by the index: two
    lights with different indices never address the same member uniform. *)
Theorem pointLight_member_inj l1 l2 member :
  index l1 <> index l2 ->
  pointLight_member l1 member <> pointLight_member l2 member.
Proof.
  unfold pointLight_member. intros Hne H. apply Hne.
  apply append_inj_l, append_inj_r in H. apply to_string_inj, H.
Qed.

Ltac assemble :=
  cbv [Material_ctor AssembleProgram mbind mret M_bind M_ret bind ret call
       get put assert trace outcome fst snd app bool_decide decide_rel
       is_Some_dec Shader.ShaderType_eqb].

Section Assembly.
Context (gl : GLdriver).

Lemma null_or_type_cases ty sh :
  null_or_type ty sh ->
  sh = None \/ exists s, sh = Some s /\ Shader.shaderType s = ty.
Proof. intros H. destruct sh as [s|]; [right; eauto|left; reflexivity]. Qed.

(** X10. When its five arguments satisfy what it asserts (vertex and
    fragment shaders present and of their types, the other three null or of
    their types), [AssembleProgram] creates the program, attaches the shaders
    that are not null in the order vertex, fragment, geometry, tessellation
    evaluation, tessellation control, links once and returns with [program]
    set, whether the link succeeded or not: a failed link only writes the
    info log to the error stream. *)
Theorem AssembleProgram_returns vertexShader fragmentShader geometryShader
    tessEvaluationShader tessControlShader _name indeterminate :
  shaders_ok vertexShader fragmentShader geometryShader
    tessEvaluationShader tessControlShader ->
  let prog := to_GLuint (newProgram gl) in
  AssembleProgram gl vertexShader fragmentShader geometryShader
    tessEvaluationShader tessControlShader (mk_Material _name indeterminate) =
  ([glCreateProgram] ++
   attached prog [vertexShader; fragmentShader; geometryShader;
                  tessEvaluationShader; tessControlShader] ++
   [glLinkProgram prog; glGetProgramiv prog GL_LINK_STATUS] ++
   (if to_GLint (linkStatus gl prog) =? 0 then
      [glGetProgramInfoLog prog 1024;
       cerr (stream ["- Failed to link program and material '"; _name;
                     "' ("; to_string prog; ")."; endl]);
       cerr (stream ["LOG: "; endl; infoLog gl prog; endl])]
    else
      [cout (stream ["- Material '"; _name; "' (program ";
                     to_string prog; ") sucessfully created."; endl])]),
   Returned tt (mk_Material _name prog)).
Proof.
  intros ((vs & -> & Hv) & (fs & -> & Hf) & Hg & Hte & Htc) prog. subst prog.
  apply null_or_type_cases in Hg, Hte, Htc.
  destruct Hg as [->|(gs & -> & Hg)], Hte as [->|(tes & -> & Hte)],
    Htc as [->|(tcs & -> & Htc)];
    assemble; rewrite Hv, Hf, ?Hg, ?Hte, ?Htc;
    destruct (to_GLint (linkStatus gl (to_GLuint (newProgram gl))) =? 0);
    reflexivity.
Qed.

Lemma AssembleProgram_ok_returned vertexShader fragmentShader geometryShader
    tessEvaluationShader tessControlShader m :
  shaders_ok vertexShader fragmentShader geometryShader
    tessEvaluationShader tessControlShader ->
  exists t,
    AssembleProgram gl vertexShader fragmentShader geometryShader
      tessEvaluationShader tessControlShader m =
    (t, Returned tt (mk_Material (name m) (to_GLuint (newProgram gl)))).
Proof.
  intros ((vs & -> & Hv) & (fs & -> & Hf) & Hg & Hte & Htc).
  apply null_or_type_cases in Hg, Hte, Htc.
  destruct Hg as [->|(gs & -> & Hg)], Hte as [->|(tes & -> & Hte)],
    Htc as [->|(tcs & -> & Htc)];
    assemble; rewrite Hv, Hf, ?Hg, ?Hte, ?Htc;
    destruct (to_GLint (linkStatus gl (to_GLuint (newProgram gl))) =? 0);
    eexists; reflexivity.
Qed.

Lemma AssembleProgram_returned_ok vertexShader fragmentShader geometryShader
    tessEvaluationShader tessControlShader m t m' :
  AssembleProgram gl vertexShader fragmentShader geometryShader
    tessEvaluationShader tessControlShader m = (t, Returned tt m') ->
  shaders_ok vertexShader fragmentShader geometryShader
    tessEvaluationShader tessControlShader.
Proof.
  unfold shaders_ok, has_type, null_or_type.
  destruct vertexShader as [vs|]; [|discriminate].
  destruct fragmentShader as [fs|]; [|discriminate].
  assemble.
  destruct (Shader.shaderType vs) eqn:Hv; try discriminate.
  destruct (Shader.shaderType fs) eqn:Hf; try discriminate.
  destruct geometryShader as [gs|];
    [destruct (Shader.shaderType gs) eqn:Hg; try discriminate|];
    (destruct tessEvaluationShader as [tes|];
      [destruct (Shader.shaderType tes) eqn:Hte; try discriminate|]);
    (destruct tessControlShader as [tcs|];
      [destruct (Shader.shaderType tcs) eqn:Htc; try discriminate|]);
    intros _; repeat split; eauto; intros s E; try discriminate;
    injection E as <-; assumption.
Qed.

(** X11. [AssembleProgram] returns exactly when its arguments satisfy what
    it asserts; a null vertex or fragment shader stops it before any OpenGL
    call, so no program object is created. *)
Theorem AssembleProgram_returns_exactly vertexShader fragmentShader
    geometryShader tessEvaluationShader tessControlShader m :
  ((exists t m',
      AssembleProgram gl vertexShader fragmentShader geometryShader
        tessEvaluationShader tessControlShader m = (t, Returned tt m')) <->
   shaders_ok vertexShader fragmentShader geometryShader
     tessEvaluationShader tessControlShader) /\
  (vertexShader = None \/ fragmentShader = None ->
   trace (AssembleProgram gl vertexShader fragmentShader geometryShader
            tessEvaluationShader tessControlShader m) = []).
Proof.
  split.
  - split.
    + intros (t & m' & H). exact (AssembleProgram_returned_ok _ _ _ _ _ _ _ _ H).
    + intros Hok.
      destruct (AssembleProgram_ok_returned _ _ _ _ _ m Hok) as (t & H). eauto.
  - intros [->| ->]; [reflexivity|].
    destruct vertexShader; reflexivity.
Qed.

(** X12. The constructor returns exactly when the vertex and fragment
    shaders are present and of their types, the geometry shader is null or of
    its type, and no tessellation-control shader is passed: a [Material] with
    a tessellation stage cannot be constructed, whatever is passed as
    tessellation-evaluation shader. *)
Theorem Material_ctor_returns_exactly _name vertexShader fragmentShader
    geometryShader tessEvaluationShader tessControlShader indeterminate :
  (exists t m',
     Material_ctor gl _name vertexShader fragmentShader geometryShader
       tessEvaluationShader tessControlShader indeterminate =
     (t, Returned tt m')) <->
  (has_type Shader.VERTEX vertexShader /\
   has_type Shader.FRAGMENT fragmentShader /\
   null_or_type Shader.GEOMETRY geometryShader /\
   tessControlShader = None).
Proof.
  unfold Material_ctor. split.
  - intros (t & m' & H). apply AssembleProgram_returned_ok in H.
    destruct H as (Hv & Hf & Hg & Hte & Htc).
    split; [exact Hv|]. split; [exact Hf|]. split; [exact Hg|].
    destruct tessControlShader as [s|]; [|reflexivity].
    pose proof (Hte s eq_refl) as E1. pose proof (Htc s eq_refl) as E2.
    rewrite E1 in E2. discriminate.
  - intros (Hv & Hf & Hg & ->).
    assert (Hok : shaders_ok vertexShader fragmentShader geometryShader None None).
    { split; [exact Hv|]. split; [exact Hf|]. split; [exact Hg|].
      split; intros s E; discriminate. }
    destruct (AssembleProgram_ok_returned _ _ _ _ _
                (mk_Material _name indeterminate) Hok) as (t & H). eauto.
Qed.

End Assembly.

Import Samples.

Lemma setValue_frame_witness :
  outcome (setValue driver (intValue 5) "missing" commands) =
    Returned tt commands /\
  (material commands = material commands /\
   textureUnits commands = textureUnits commands).
Proof.
  split; [reflexivity|].
  exact (setValue_frame driver (intValue 5) "missing" commands tt commands eq_refl).
Defined.

Lemma uploadParameters_passes_independent_witness :
  uploadParameters driver group commands =
    (trace (uploadParameters driver group commands), Returned tt commands) /\
  uploadParameters driver [("albedo", sampler2DValue (mk_Sampler2D (mk_Texture 8)))]
    commands =
  ([glError; glError; glActiveTexture GL_TEXTURE0; glBindTexture GL_TEXTURE_2D 8;
    glGetUniformLocation 3 "albedo"; glUniform1i 1 0; glError; glError],
   Returned tt commands).
Proof.
  assert (H : uploadParameters driver group commands =
              (trace (uploadParameters driver group commands),
               Returned tt commands)) by reflexivity.
  split; [exact H|].
  destruct (uploadParameters_passes_independent driver group
              [("albedo", sampler2DValue (mk_Sampler2D (mk_Texture 8)))]
              commands _ commands H) as (_ & _ & E).
  exact (eq_trans E eq_refl).
Defined.

Lemma uploadParameters_stops_at_NONE_witness :
  asserts_hold group /\
  outcome (uploadParameters driver
             (group ++ ("unset", none) :: [("M", mat4Value mat4_0)]) commands) =
  Aborted assert_setting_not_NONE.
Proof.
  split; [exact group_asserts_hold|].
  rewrite (uploadParameters_stops_at_NONE driver group "unset"
             [("M", mat4Value mat4_0)] commands group_asserts_hold).
  reflexivity.
Defined.

Lemma uploadParameters_active_textures_witness :
  asserts_hold group /\
  active_textures (trace (uploadParameters driver group commands)) =
    [GL_TEXTURE0; GL_TEXTURE0 + 1].
Proof.
  split; [exact group_asserts_hold|].
  rewrite (proj1 (uploadParameters_active_textures driver group commands
                    group_asserts_hold)).
  reflexivity.
Defined.

Lemma setValue_warns_exactly_when_unresolved_witness :
  enumerated (getType (intValue 5)) /\
  getType (intValue 5) <> POINT_LIGHT /\
  printed (trace (setValue driver (intValue 5) "missing" commands)) =
    [warning "missing" "voxelization"] /\
  printed (trace (setValue driver (intValue 5) "M" commands)) = [].
Proof.
  assert (Hty : enumerated (getType (intValue 5)))
    by (apply enumerated_not_NONE; discriminate).
  assert (Hnl : getType (intValue 5) <> POINT_LIGHT) by discriminate.
  split; [exact Hty|]. split; [exact Hnl|]. split.
  - rewrite (setValue_warns_exactly_when_unresolved driver (intValue 5) "missing"
               commands Hty Hnl ltac:(discriminate)).
    reflexivity.
  - rewrite (setValue_warns_exactly_when_unresolved driver (intValue 5) "M"
               commands Hty Hnl ltac:(discriminate)).
    reflexivity.
Defined.

Lemma pointLight_member_inj_witness :
  index light_0 <> index (mk_PointLight 1 vec3_1 vec3_1) /\
  pointLight_member light_0 "].position" <>
  pointLight_member (mk_PointLight 1 vec3_1 vec3_1) "].position".
Proof.
  assert (H : index light_0 <> index (mk_PointLight 1 vec3_1 vec3_1))
    by discriminate.
  split; [exact H|].
  exact (pointLight_member_inj light_0 (mk_PointLight 1 vec3_1 vec3_1)
           "].position" H).
Defined.

Lemma AssembleProgram_returns_witness :
  shaders_ok (Some vertex) (Some fragment) None
    (Some tessEvaluation) (Some tessControl) /\
  AssembleProgram driver (Some vertex) (Some fragment) None
    (Some tessEvaluation) (Some tessControl) (mk_Material "voxelization" 0) =
  ([glCreateProgram; glAttachShader 3 10; glAttachShader 3 11;
    glAttachShader 3 12; glAttachShader 3 13;
    glLinkProgram 3; glGetProgramiv 3 GL_LINK_STATUS;
    cout (stream ["- Material '"; "voxelization"; "' (program "; "3";
                  ") sucessfully created."; endl])],
   Returned tt (mk_Material "voxelization" 3)).
Proof.
  assert (Hok : shaders_ok (Some vertex) (Some fragment) None
                  (Some tessEvaluation) (Some tessControl)).
  { split; [eexists; split; reflexivity|]. split; [eexists; split; reflexivity|].
    split; [intros s E; discriminate|].
    split; intros s E; injection E as <-; reflexivity. }
  split; [exact Hok|].
  rewrite (AssembleProgram_returns driver _ _ _ _ _ "voxelization" 0 Hok).
  reflexivity.
Defined.

End MaterialExtras.

(** ** The entries a pass reaches *)

Module MaterialClaims.
Import Material ShaderParameter UniformLayer PassStatements UniformStatements.
Import GLFacts MaterialFacts MaterialExtras Samples.

Lemma warning_is_text name materialName :
  warning name materialName = warning_text name materialName.
Proof. reflexivity. Qed.

Lemma position_member light :
  pointLight_member light "].position" = light_uniform light "position".
Proof. reflexivity. Qed.

Lemma color_member light :
  pointLight_member light "].color" = light_uniform light "color".
Proof. reflexivity. Qed.

Section WithDriver.
Context (gl : GLdriver).

(** The run of [SetPointLight] inside [setValue], in the two cases. *)
Lemma setValue_pointLight name light c :
  let prog := program (material c) in
  let lp := location_of gl (material c) (light_uniform light "position") in
  let lc := location_of gl (material c) (light_uniform light "color") in
  setValue gl (pointLightValue light) name c =
  ((if lp =? -1 then
      [glError;
       glGetUniformLocation prog (light_uniform light "position");
       glUniform3fv (-1) 1 (position light);
       glUniform3fv (-1) 1 (color light);
       glError;
       printf (warning_text name (Material.name (material c)))]
    else
      [glError;
       glGetUniformLocation prog (light_uniform light "position");
       glUniform3fv lp 1 (position light);
       glGetUniformLocation prog (light_uniform light "color");
       glUniform3fv lc 1 (color light);
       glError] ++
      (if lc =? -1
       then [printf (warning_text name (Material.name (material c)))] else [])),
   Returned tt c).
Proof.
  intros prog lp lc. subst prog lp lc. unfold location_of.
  rewrite <- !position_member, <- !color_member, <- warning_is_text. run.
  destruct (to_GLint (uniformLocation gl (program (material c))
              (pointLight_member light "].position")) =? -1) eqn:Hlp.
  - apply Z.eqb_eq in Hlp. rewrite Hlp. reflexivity.
  - destruct (to_GLint (uniformLocation gl (program (material c))
                (pointLight_member light "].color")) =? -1); reflexivity.
Qed.

(** One entry: its lookup and typed upload are part of what [setValue]
    emits. *)
Lemma setValue_upload_calls setting name c u :
  enumerated (getType setting) ->
  (is_sampler (getType setting) = true ->
   u < GL_MAX_COMBINED_TEXTURE_IMAGE_UNITS) ->
  exists pre post,
    trace (setValue gl setting name (at_unit c u)) =
    pre ++ typed_upload_calls gl (material c) name setting u ++ post.
Proof.
  intros Hty Hu. apply enumerated_not_NONE in Hty.
  destruct setting; try (exfalso; apply Hty; reflexivity);
    try (specialize (Hu eq_refl); apply Z.ltb_lt in Hu).
  11: { rewrite setValue_pointLight. cbn [trace fst typed_upload_calls material at_unit].
        destruct (location_of gl (material c) (light_uniform l "position") =? -1).
        - exists [glError]. eexists. cbn [app]. reflexivity.
        - exists [glError]. eexists. cbn [app]. reflexivity. }
  all: unfold typed_upload_calls, location_of;
    run; cbn [material textureUnits at_unit]; rewrite ?Hu;
    cbn [material textureUnits at_unit];
    rewrite ?to_GLint_to_GLuint, ?to_GLint_idem; branches.
  all: try (exists [glError]; eexists; cbn [app]; reflexivity).
  all: eexists [glError; _; _]; eexists; cbn [app]; reflexivity.
Qed.

(** Up to an entry the pass reaches, the pass emits one [iteration] per
    entry, each with the counter at the number of samplers before it. *)
Lemma uploadParameters_prefix group c i :
  reached group i ->
  exists post,
    trace (uploadParameters gl group c) =
    concat (imap (fun j e => iteration gl c (units_before group j) e)
                 (take (S i) group)) ++ post.
Proof.
  intros [Hty Hmax]. rewrite uploadParameters_trace.
  pose proof (uploadParameters_for_run gl (take (S i) group) c 0
                ltac:(lia) Hty ltac:(lia)) as Hpre.
  pose proof (uploadParameters_for_app gl (take (S i) group)
                (drop (S i) group) _ _ _ Hpre) as Happ.
  rewrite take_drop in Happ. rewrite Happ. cbn [trace fst].
  eexists. f_equal. f_equal. apply imap_ext. intros j e Hj.
  rewrite Z.add_0_l. unfold units_before.
  apply lookup_lt_Some in Hj. rewrite length_take in Hj.
  rewrite take_take. replace (j `min` S i)%nat with j by lia. reflexivity.
Qed.

Lemma reached_lookup_bound group i e :
  reached group i ->
  group !! i = Some e ->
  is_sampler (getType (snd e)) = true ->
  units_before group i < GL_MAX_COMBINED_TEXTURE_IMAGE_UNITS.
Proof.
  intros [_ Hmax] Hi Hs.
  rewrite (take_S_r group i e Hi), count_samplers_app, count_samplers_cons in Hmax.
  rewrite Hs in Hmax. change (count_samplers []) with 0 in Hmax.
  unfold units_before. lia.
Qed.

(** C1, as amended. In a pass of [uploadParameters] over any parameter
    group, every entry whose declared type is one of the eleven
    shader-parameter types and which the pass reaches without a failed
    assertion (no entry of type NONE before it, at most 35661 sampler entries
    up to and including it) has its uniform looked up by name in the program
    of the material and its value uploaded by the typed upload call of its
    declared type at the location found, whether or not the pass goes on to
    return. A point light has its position member looked up and its position
    uploaded there and, when that resolved, its colour member looked up and
    its colour uploaded there. *)
Theorem uploadParameters_uploads_reached group c i name setting :
  group !! i = Some (name, setting) ->
  enumerated (getType setting) ->
  reached group i ->
  exists pre post,
    trace (uploadParameters gl group c) =
    pre ++ typed_upload_calls gl (material c) name setting
             (units_before group i) ++ post.
Proof.
  intros Hi Hty Hreach.
  destruct (uploadParameters_prefix group c i Hreach) as (rest & ->).
  assert (Hi' : take (S i) group !! i = Some (name, setting))
    by (rewrite lookup_take_lt by lia; exact Hi).
  destruct (concat_imap_lookup (take (S i) group)
              (fun j e => iteration gl c (units_before group j) e)
              i (name, setting) Hi') as (pre & post & ->).
  destruct (setValue_upload_calls setting name c (units_before group i) Hty)
    as (pre' & post' & Ht).
  { intros Hs. exact (reached_lookup_bound group i (name, setting) Hreach Hi Hs). }
  exists (pre ++ glError :: pre'), (post' ++ [glError] ++ post ++ rest).
  unfold iteration. cbn [fst snd]. rewrite Ht.
  repeat (rewrite <- ?app_assoc; cbn [app]). reflexivity.
Qed.

(** C2, as amended. A pass resets the texture-unit counter to zero before
    the first entry, whatever it was. Up to any entry the pass reaches
    without a failed assertion (no entry of type NONE before it, at most
    35661 sampler entries up to and including it), the entries are processed
    in order, each with the counter at the number of sampler entries before
    it; such a sampler2D or sampler3D entry activates the texture unit of that
    index, binds its texture there and sets its uniform to the index, and the
    counter is one higher for the next entry; an entry of another type issues
    no texture call and leaves the counter as it was. So the k-th sampler
    entry of a pass, when so reached, uses texture unit k-1; and a pass on
    which no assertion fails at all returns with the counter back at zero. *)
Theorem uploadParameters_texture_units_reached group c :
  (forall u, uploadParameters gl group (at_unit c u) =
             uploadParameters gl group (at_unit c 0)) /\
  units_before group 0 = 0 /\
  (forall i name setting,
     group !! i = Some (name, setting) ->
     units_before group (S i) =
     units_before group i + (if is_sampler (getType setting) then 1 else 0)) /\
  (forall i,
     reached group i ->
     exists post,
       trace (uploadParameters gl group c) =
       concat (imap (fun j e => iteration gl c (units_before group j) e)
                    (take (S i) group)) ++ post) /\
  (forall i name setting target tex,
     group !! i = Some (name, setting) ->
     texture_target setting = Some (target, tex) ->
     reached group i ->
     is_sampler (getType setting) = true /\
     iteration gl c (units_before group i) (name, setting) =
     [glError; glError;
      glActiveTexture (33984 + units_before group i);
      glBindTexture target tex;
      glGetUniformLocation (program (material c)) name;
      glUniform1i (location_of gl (material c) name) (units_before group i);
      glError]
     ++ (if location_of gl (material c) name =? -1
         then [printf (warning_text name (Material.name (material c)))] else [])
     ++ [glError]) /\
  (forall i name setting,
     group !! i = Some (name, setting) ->
     texture_target setting = None ->
     is_sampler (getType setting) = false /\
     Forall (fun e => ~ is_texture_call e)
            (iteration gl c (units_before group i) (name, setting))) /\
  (asserts_hold group ->
   uploadParameters gl group c =
     (concat (imap (fun i e => iteration gl c (units_before group i) e) group),
      Returned tt (at_unit c 0))).
Proof.
  split; [intros u; reflexivity|].
  split; [reflexivity|].
  split; [intros i name setting Hi; apply (units_before_S group i _ Hi)|].
  split; [intros i Hreach; apply uploadParameters_prefix, Hreach|].
  split; [|split].
  - intros i name setting target tex Hi Ht Hreach.
    assert (Hs : is_sampler (getType setting) = true)
      by (destruct setting; try discriminate; reflexivity).
    split; [exact Hs|].
    apply (iteration_sampler gl name setting target tex c); [assumption|]. split.
    + apply units_before_nonneg.
    + exact (reached_lookup_bound group i (name, setting) Hreach Hi Hs).
  - intros i name setting Hi Ht. split.
    + destruct setting; try discriminate; reflexivity.
    + apply iteration_other. assumption.
  - apply uploadParameters_run.
Qed.

(** C3. When the typed upload call of an entry returns -1 (its uniform
    name does not resolve in the linked program), [setValue] prints the
    warning "WARNING: parameter <name> was not found for material <material>"
    and returns to its caller without changing the object, and the loop of the
    pass goes on with the remaining entries; no assertion stops the process
    at this entry. *)
Theorem setValue_unresolved_prints_warning setting name c t c1 rest :
  enumerated (getType setting) ->
  setValue_switch gl setting name c = (t, Returned (-1) c1) ->
  setValue gl setting name c =
    (glError :: t ++
       [glError; printf (warning_text name (Material.name (material c)))],
     Returned tt c) /\
  uploadParameters_for gl ((name, setting) :: rest) c =
    let c' := at_unit c (to_GLint (textureUnits c +
                (if is_sampler (getType setting) then 1 else 0))) in
    ((glError :: (glError :: t ++
         [glError; printf (warning_text name (Material.name (material c)))]) ++
         [glError]) ++ trace (uploadParameters_for gl rest c'),
     outcome (uploadParameters_for gl rest c')).
Proof.
  intros Hty Hsw.
  pose proof (setValue_switch_state gl _ _ _ _ _ _ Hsw) as ->.
  pose proof (setValue_of_switch gl _ _ _ _ _ Hty Hsw) as Hset.
  cbn [Z.eqb Pos.eqb] in Hset. rewrite warning_is_text in Hset.
  split; [exact Hset|].
  rewrite uploadParameters_for_cons by (rewrite Hset; reflexivity).
  rewrite Hset. cbn [trace outcome fst snd].
  cbv zeta. f_equal. cbn [app]. rewrite <- !app_assoc. reflexivity.
Qed.

Lemma light_uniforms_differ light :
  light_uniform light "color" <> light_uniform light "position".
Proof. exact (pointLight_members_differ light). Qed.

(** C10. For a point-light entry, [setValue] uploads the light's position
    to the uniform [pointLights[index].position], the index in decimal; when
    that uniform resolves, it looks up [pointLights[index].color] and uploads
    the light's colour there; when it does not, the colour member is never
    looked up and the colour is written to location -1. The warning
    "WARNING: parameter <name> was not found for material <material>" is
    printed exactly when the position member or the colour member is
    unresolved. *)
Theorem SetPointLight_members_and_warning name light c :
  let prog := program (material c) in
  let position_name := light_uniform light "position" in
  let color_name := light_uniform light "color" in
  let lp := location_of gl (material c) position_name in
  let lc := location_of gl (material c) color_name in
  let w := printf (warning_text name (Material.name (material c))) in
  exists t,
    setValue gl (pointLightValue light) name c = (t, Returned tt c) /\
    t = (if lp =? -1 then
           [glError;
            glGetUniformLocation prog position_name;
            glUniform3fv (-1) 1 (position light);
            glUniform3fv (-1) 1 (color light);
            glError; w]
         else
           [glError;
            glGetUniformLocation prog position_name;
            glUniform3fv lp 1 (position light);
            glGetUniformLocation prog color_name;
            glUniform3fv lc 1 (color light);
            glError] ++ (if lc =? -1 then [w] else [])) /\
    (lp = -1 -> ~ In (glGetUniformLocation prog color_name) t) /\
    (In w t <-> lp = -1 \/ lc = -1).
Proof.
  intros prog position_name color_name lp lc w.
  pose proof (light_uniforms_differ light) as Hne.
  eexists. split; [apply setValue_pointLight|]. split; [reflexivity|].
  fold prog position_name color_name lp lc w. split.
  - intros Hlp. rewrite Hlp. cbn [Z.eqb Pos.eqb]. cbn [In].
    intros [H|[H|[H|[H|[H|[H|[]]]]]]]; try discriminate.
    apply (f_equal (fun e => match e with
                             | glGetUniformLocation _ n => n
                             | _ => EmptyString
                             end)) in H.
    apply Hne. symmetry. exact H.
  - destruct (lp =? -1) eqn:Hlp.
    + apply Z.eqb_eq in Hlp. split; [intros _; left; exact Hlp|].
      intros _. cbn [In]. tauto.
    + apply Z.eqb_neq in Hlp. destruct (lc =? -1) eqn:Hlc.
      * apply Z.eqb_eq in Hlc. split; [intros _; right; exact Hlc|].
        intros _. cbn [In app]. tauto.
      * apply Z.eqb_neq in Hlc. split; [|tauto].
        cbn [In app]. intros [H|[H|[H|[H|[H|[H|[]]]]]]]; discriminate.
Qed.

End WithDriver.

Lemma count_samplers_replicate n :
  count_samplers (replicate n sampler_entry) = Z.of_nat n.
Proof.
  induction n as [|n IH]; [reflexivity|].
  change (replicate (S n) sampler_entry) with (sampler_entry :: replicate n sampler_entry).
  rewrite count_samplers_cons, IH. cbn [snd sampler_entry getType is_sampler Type_eqb orb].
  lia.
Qed.

Lemma replicate_enumerated n :
  Forall (fun e => enumerated (getType (snd e))) (replicate n sampler_entry).
Proof.
  apply Forall_replicate. apply enumerated_not_NONE. discriminate.
Qed.

(** C2, as stated, fails: in a pass over 35662 sampler entries the last
    one finds the counter at 35661 and the assertion of [ActivateTexture2D]
    stops the pass; the pass activates 35661 texture units, and the 35662nd
    sampler entry uses none. *)
Lemma uploadParameters_sampler_beyond_bound :
  many_samplers !! Z.to_nat 35661 = Some sampler_entry /\
  units_before many_samplers (Z.to_nat 35661) = 35661 /\
  outcome (uploadParameters driver_lights many_samplers commands) =
    Aborted assert_texture_unit_2D /\
  Z.of_nat (length (active_textures
                      (trace (uploadParameters driver_lights many_samplers commands))))
    = 35661 /\
  ~ In (glActiveTexture (33984 + 35661))
       (trace (uploadParameters driver_lights many_samplers commands)).
Proof.
  set (n := Z.to_nat 35661).
  assert (Hn : Z.of_nat n = 35661) by (subst n; lia).
  assert (Hmany : many_samplers = replicate n sampler_entry ++ [sampler_entry]).
  { unfold many_samplers. replace (Z.to_nat 35662) with (S n) by (subst n; lia).
    apply replicate_S_end. }
  assert (Hpre : uploadParameters_for driver_lights (replicate n sampler_entry)
                   (at_unit commands 0) =
                 (trace (uploadParameters_for driver_lights
                           (replicate n sampler_entry) (at_unit commands 0)),
                  Returned tt (at_unit commands 35661))).
  { rewrite (uploadParameters_for_run driver_lights (replicate n sampler_entry)
               commands 0 ltac:(lia) (replicate_enumerated n)).
    - cbn [trace fst]. rewrite count_samplers_replicate, Hn. reflexivity.
    - rewrite count_samplers_replicate, Hn.
      unfold GL_MAX_COMBINED_TEXTURE_IMAGE_UNITS. lia. }
  assert (Hlast : uploadParameters_for driver_lights [sampler_entry]
                    (at_unit commands 35661) =
                  ([glError; glError], Aborted assert_texture_unit_2D))
    by reflexivity.
  assert (Hrun : uploadParameters_for driver_lights many_samplers
                   (at_unit commands 0) =
                 (trace (uploadParameters_for driver_lights
                           (replicate n sampler_entry) (at_unit commands 0))
                  ++ [glError; glError],
                  Aborted assert_texture_unit_2D)).
  { rewrite Hmany.
    rewrite (uploadParameters_for_app driver_lights _ [sampler_entry] _ _ _ Hpre).
    rewrite Hlast. reflexivity. }
  assert (Hact : active_textures
                   (trace (uploadParameters driver_lights many_samplers commands)) =
                 map (fun k => 33984 + (0 + Z.of_nat k)) (seq 0 n)).
  { rewrite uploadParameters_trace, Hrun. cbn [trace fst].
    rewrite active_textures_app.
    change (active_textures [glError; glError]) with (@nil Z).
    rewrite app_nil_r.
    rewrite (active_textures_for driver_lights (replicate n sampler_entry)
               commands 0 ltac:(lia) (replicate_enumerated n)).
    - rewrite count_samplers_replicate, Nat2Z.id. reflexivity.
    - rewrite count_samplers_replicate, Hn.
      unfold GL_MAX_COMBINED_TEXTURE_IMAGE_UNITS. lia. }
  split.
  { rewrite Hmany, lookup_app_r by (rewrite length_replicate; lia).
    rewrite length_replicate, Nat.sub_diag. reflexivity. }
  split.
  { unfold units_before. rewrite Hmany.
    rewrite take_app_length' by (rewrite length_replicate; reflexivity).
    rewrite count_samplers_replicate. exact Hn. }
  split.
  - unfold uploadParameters.
    cbv [mbind M_bind bind set_textureUnits get put].
    change (mk_Commands (material commands) 0) with (at_unit commands 0).
    rewrite Hrun. reflexivity.
  - split.
    + rewrite Hact, length_map, length_seq. exact Hn.
    + intros Hin.
      assert (Hel : (33984 + 35661) ∈ active_textures
                      (trace (uploadParameters driver_lights many_samplers commands))).
      { apply list_elem_of_omap. exists (glActiveTexture (33984 + 35661)).
        split; [apply list_elem_of_In, Hin|reflexivity]. }
      rewrite Hact in Hel. apply list_elem_of_In, in_map_iff in Hel.
      destruct Hel as (k & Hk & Hseq). apply in_seq in Hseq. lia.
Qed.

(** C1, as stated, fails: in the group [unset : NONE; f : float] the entry
    [f] is of one of the eleven types, yet the assertion on the first entry
    stops the pass and [f] is never looked up nor uploaded. *)
Lemma uploadParameters_skips_after_NONE :
  NONE_first !! 1%nat = Some ("f", floatValue float_1) /\
  enumerated (getType (floatValue float_1)) /\
  uploadParameters driver_lights NONE_first commands =
    ([glError], Aborted assert_setting_not_NONE) /\
  ~ (exists pre e post,
       trace (uploadParameters driver_lights NONE_first commands) =
       pre ++ glGetUniformLocation 3 "f" :: e :: post).
Proof.
  split; [reflexivity|].
  split; [apply enumerated_not_NONE; discriminate|].
  split; [reflexivity|].
  intros (pre & e & post & H).
  change (trace (uploadParameters driver_lights NONE_first commands))
    with [glError] in H.
  apply (f_equal (@length event)) in H. rewrite length_app in H.
  cbn [length] in H. lia.
Qed.

Lemma NONE_fourth_light_reached : reached NONE_fourth 1.
Proof.
  split.
  - cbn [take NONE_fourth]. repeat constructor; apply enumerated_not_NONE; discriminate.
  - vm_compute. discriminate.
Defined.

Lemma uploadParameters_uploads_reached_witness :
  NONE_fourth !! 1%nat = Some ("light", pointLightValue light_12) /\
  enumerated (getType (pointLightValue light_12)) /\
  reached NONE_fourth 1 /\
  exists pre post,
    trace (uploadParameters driver_lights NONE_fourth commands) =
    pre ++ [glGetUniformLocation 3 "pointLights[12].position";
            glUniform3fv 4 1 vec3_1;
            glGetUniformLocation 3 "pointLights[12].color";
            glUniform3fv 5 1 vec3_half] ++ post.
Proof.
  assert (Hty : enumerated (getType (pointLightValue light_12)))
    by (apply enumerated_not_NONE; discriminate).
  split; [reflexivity|]. split; [exact Hty|].
  split; [exact NONE_fourth_light_reached|].
  exact (uploadParameters_uploads_reached driver_lights NONE_fourth commands 1
           "light" (pointLightValue light_12) eq_refl Hty
           NONE_fourth_light_reached).
Defined.

Lemma samplers_then_NONE_reached : reached samplers_then_NONE 2.
Proof.
  split.
  - cbn [take samplers_then_NONE].
    repeat constructor; apply enumerated_not_NONE; discriminate.
  - vm_compute. discriminate.
Defined.

Lemma uploadParameters_texture_units_reached_witness :
  reached samplers_then_NONE 2 /\
  units_before samplers_then_NONE 2 = 1 /\
  iteration driver_lights commands 1
    ("voxels", sampler3DValue (mk_Sampler3D (mk_Texture 9))) =
    [glError; glError; glActiveTexture 33985; glBindTexture 32879 9;
     glGetUniformLocation 3 "voxels"; glUniform1i 2 1; glError; glError] /\
  exists post,
    trace (uploadParameters driver_lights samplers_then_NONE commands) =
    [glError; glError; glActiveTexture 33984; glBindTexture 3553 7;
     glGetUniformLocation 3 "albedo"; glUniform1i 1 0; glError; glError;
     glError; glError; glGetUniformLocation 3 "f"; glUniform1f 6 float_1;
     glError; glError;
     glError; glError; glActiveTexture 33985; glBindTexture 32879 9;
     glGetUniformLocation 3 "voxels"; glUniform1i 2 1; glError; glError] ++ post.
Proof.
  split; [exact samplers_then_NONE_reached|]. split; [reflexivity|].
  destruct (uploadParameters_texture_units_reached driver_lights
              samplers_then_NONE commands)
    as (_ & _ & _ & Hprefix & Hsampler & _).
  split.
  - exact (proj2 (Hsampler 2%nat "voxels"
                    (sampler3DValue (mk_Sampler3D (mk_Texture 9))) 32879 9
                    eq_refl eq_refl samplers_then_NONE_reached)).
  - exact (Hprefix 2%nat samplers_then_NONE_reached).
Defined.

Lemma setValue_unresolved_prints_warning_witness :
  enumerated (getType (intValue 5)) /\
  setValue_switch driver (intValue 5) "missing" commands =
    ([glGetUniformLocation 3 "missing"; glUniform1i (-1) 5],
     Returned (-1) commands) /\
  setValue driver (intValue 5) "missing" commands =
    ([glError; glGetUniformLocation 3 "missing"; glUniform1i (-1) 5; glError;
      printf (String.append
                "WARNING: parameter missing was not found for material voxelization"
                (String (ascii_of_nat 10) EmptyString))],
     Returned tt commands).
Proof.
  assert (Hty : enumerated (getType (intValue 5)))
    by (apply enumerated_not_NONE; discriminate).
  split; [exact Hty|]. split; [reflexivity|].
  exact (proj1 (setValue_unresolved_prints_warning driver (intValue 5) "missing"
                  commands _ _ [] Hty eq_refl)).
Defined.

Lemma SetPointLight_members_and_warning_witness :
  (exists t,
     setValue driver_lights (pointLightValue light_12) "light" commands =
       (t, Returned tt commands) /\
     t = [glError;
          glGetUniformLocation 3 "pointLights[12].position";
          glUniform3fv 4 1 vec3_1;
          glGetUniformLocation 3 "pointLights[12].color";
          glUniform3fv 5 1 vec3_half;
          glError]) /\
  (exists t,
     setValue driver_lights (pointLightValue light_7) "sun" commands =
       (t, Returned tt commands) /\
     t = [glError;
          glGetUniformLocation 3 "pointLights[7].position";
          glUniform3fv (-1) 1 vec3_1;
          glUniform3fv (-1) 1 vec3_half;
          glError;
          printf (String.append
                    "WARNING: parameter sun was not found for material voxelization"
                    (String (ascii_of_nat 10) EmptyString))]).
Proof.
  split.
  - destruct (SetPointLight_members_and_warning driver_lights "light" light_12
                commands) as (t & Hrun & Ht & _).
    exists t. split; [exact Hrun|]. rewrite Ht. reflexivity.
  - destruct (SetPointLight_members_and_warning driver_lights "sun" light_7
                commands) as (t & Hrun & Ht & _).
    exists t. split; [exact Hrun|]. rewrite Ht. reflexivity.
Defined.

End MaterialClaims.
